(** * Phabricator connector: cursor pagination, entity parsers, fan-out and
    batch dispatch.

    Shallow embedding of
      - [app/data_source/sources/phabricator/client.py]
      - [app/data_source/sources/phabricator/phabricator.py]

    Conventions of the embedding.
      - A Python call either returns a value or raises: [result].
      - The [while True] loop of [_get_objects] takes a fuel argument; running
        out of fuel is [None], distinct from both returning and raising.
      - The query parameters are a Python [dict] that [_get_objects] updates
        in place; the model threads that dictionary and hands back its final
        contents next to the returned value.
      - The remote server, the process log and the index queue form the
        [World] that the connector runs against.
      - Raw Conduit rows are records with one field per JSON key the code
        reads; absent keys (a malformed response) are outside the model. *)

From Stdlib Require Import ZArith List Lia.
From stdpp Require Import gmap strings list fin_maps.

Local Open Scope string_scope.
Local Open Scope list_scope.

(** ** Python call outcomes *)

Inductive exn : Type :=
| IndexError
| RequestError (reason : string).

Inductive result (A : Type) : Type :=
| Ok (a : A)
| Raise (e : exn).
Arguments Ok {A} a.
Arguments Raise {A} e.

(** ** Records built by the client ([client.py], lines 10-28) *)

Record PhabricatorObject : Type := mkPhabricatorObject {
  id : string;
  phid : string;
  author_phid : string;
  timestamp : Z;
  contents : string
}.

(** The three dataclasses deriving from [PhabricatorObject]; the constructor
    is what [isinstance] inspects. *)
Inductive PhabObject : Type :=
| PhabricatorWiki (base : PhabricatorObject) (name : string)
| PhabricatorTask (base : PhabricatorObject) (name : string)
| PhabricatorComment (base : PhabricatorObject).

Definition base_of (o : PhabObject) : PhabricatorObject :=
  match o with
  | PhabricatorWiki b _ | PhabricatorTask b _ | PhabricatorComment b => b
  end.

Definition is_comment (o : PhabObject) : bool :=
  match o with PhabricatorComment _ => true | _ => false end.

Definition is_wiki (o : PhabObject) : bool :=
  match o with PhabricatorWiki _ _ => true | _ => false end.

Definition is_task (o : PhabObject) : bool :=
  match o with PhabricatorTask _ _ => true | _ => false end.

(** ** Raw Conduit responses *)

(** [{"raw": ...}] *)
Record RawText : Type := mkRawText { raw : string }.

(** A row of [maniphest.search]. *)
Record TaskFields : Type := mkTaskFields {
  task_name : string;
  task_description : RawText;
  task_dateModified : Z;
  task_authorPHID : string
}.
Record TaskRow : Type := mkTaskRow {
  task_id : string;
  task_phid : string;
  task_fields : TaskFields
}.

(** A row of [phriction.content.search] with the content attachment. *)
Record WikiContent : Type := mkWikiContent {
  wiki_authorPHID : string;
  wiki_title : string;
  wiki_content : RawText
}.
Record WikiRow : Type := mkWikiRow {
  wiki_id : string;
  wiki_phid : string;
  wiki_dateModified : Z;          (* wiki["fields"]["dateModified"] *)
  wiki_attachment : WikiContent   (* wiki["attachments"]["content"] *)
}.

(** A row of [transaction.search]. *)
Record CommentPayload : Type := mkCommentPayload {
  comment_id : string;
  comment_phid : string;
  comment_content : RawText;
  comment_dateModified : Z;
  comment_authorPHID : string
}.
Record Transaction : Type := mkTransaction {
  tx_type : string;
  tx_comments : list CommentPayload
}.

(** [results["cursor"]]: JSON [null] is [None]. *)
Record Cursor : Type := mkCursor {
  before : option string;
  after : option string
}.

Record RawPage (R : Type) : Type := mkRawPage {
  data : list R;
  cursor : Cursor
}.
Arguments mkRawPage {R} data cursor.
Arguments data {R} r.
Arguments cursor {R} r.

(** ** Query parameters *)

Inductive QValue : Type :=
| QStr (s : string)
| QInt (z : Z)
| QBool (b : bool).

Abbreviation Query := (gmap string QValue).

(** ** Paging direction ([client.py], lines 76-82) *)

(** The two strings [_get_paging_direction] can return; returning nothing is
    [None] at type [option direction]. *)
Inductive direction : Type := Before | After.

Definition direction_key (d : direction) : string :=
  match d with Before => "before" | After => "after" end.

(** [cursor[paging_direction]] *)
Definition cursor_item (c : Cursor) (d : direction) : option string :=
  match d with Before => before c | After => after c end.

Definition _get_paging_direction (c : Cursor) : option direction :=
  match before c with
  | Some _ => Some Before
  | None =>
      match after c with
      | Some _ => Some After
      | None => None
      end
  end.

(** ** Entity parsers ([client.py], lines 112-158) *)

Definition mk_comment (comment : CommentPayload) : PhabObject :=
  PhabricatorComment
    {| id := comment_id comment;
       phid := comment_phid comment;
       contents := raw (comment_content comment);
       timestamp := comment_dateModified comment;
       author_phid := comment_authorPHID comment |}.

(** The body of the [for transaction in results["data"]] loop, from the
    accumulated list to the accumulated list; [transaction["comments"][0]]
    raises [IndexError] on an empty list. *)
Definition _comment_parser_body (transaction : Transaction) (date_modified : Z)
    (parsed_comments : list PhabObject) : result (list PhabObject) :=
  if String.eqb (tx_type transaction) "comment" then
    match tx_comments transaction with
    | [] => Raise IndexError
    | comment :: _ =>
        if (date_modified <=? comment_dateModified comment)%Z then
          Ok (parsed_comments ++ [mk_comment comment])
        else Ok parsed_comments
    end
  else Ok parsed_comments.

Fixpoint _comment_parser_loop (transactions : list Transaction) (date_modified : Z)
    (parsed_comments : list PhabObject) : result (list PhabObject) :=
  match transactions with
  | [] => Ok parsed_comments
  | transaction :: rest =>
      match _comment_parser_body transaction date_modified parsed_comments with
      | Ok parsed_comments => _comment_parser_loop rest date_modified parsed_comments
      | Raise e => Raise e
      end
  end.

Definition _comment_parser (results : RawPage Transaction) (date_modified : Z)
    : result (list PhabObject) :=
  _comment_parser_loop (data results) date_modified [].

Definition mk_task (task : TaskRow) : PhabObject :=
  PhabricatorTask
    {| id := task_id task;
       contents := raw (task_description (task_fields task));
       timestamp := task_dateModified (task_fields task);
       phid := task_phid task;
       author_phid := task_authorPHID (task_fields task) |}
    (task_name (task_fields task)).

Definition _task_parser (results : RawPage TaskRow) : list PhabObject :=
  map mk_task (data results).

(** A Python [dict] with string keys, as the list of its items in iteration
    order: assigning to a key already present replaces the value where the
    key stands, assigning to a new key appends. *)
Fixpoint dict_setitem {V : Type} (d : list (string * V)) (k : string) (v : V)
    : list (string * V) :=
  match d with
  | [] => [(k, v)]
  | (k', v') :: d' =>
      if String.eqb k' k then (k', v) :: d'
      else (k', v') :: dict_setitem d' k v
  end.

Definition dict_values {V : Type} (d : list (string * V)) : list V := map snd d.

Definition mk_wiki (wiki : WikiRow) : PhabObject :=
  PhabricatorWiki
    {| id := wiki_id wiki;
       phid := wiki_phid wiki;
       author_phid := wiki_authorPHID (wiki_attachment wiki);
       timestamp := wiki_dateModified wiki;
       contents := raw (wiki_content (wiki_attachment wiki)) |}
    (wiki_title (wiki_attachment wiki)).

Fixpoint _wiki_parser_loop (wikis : list WikiRow) (date_modified : Z)
    (parsed_wikis : list (string * PhabObject)) : list (string * PhabObject) :=
  match wikis with
  | [] => parsed_wikis
  | wiki :: rest =>
      if (date_modified <=? wiki_dateModified wiki)%Z then
        _wiki_parser_loop rest date_modified
          (dict_setitem parsed_wikis (wiki_phid wiki) (mk_wiki wiki))
      else _wiki_parser_loop rest date_modified parsed_wikis
  end.

Definition _wiki_parser (results : RawPage WikiRow) (date_modified : Z)
    : list PhabObject :=
  dict_values (_wiki_parser_loop (data results) date_modified []).

(** ** The world the connector runs against *)

(** Modelled from the spec: [DocumentType] of [data_source.api.basic_document]
    is not part of these sources; the dispatcher only ever uses the
    comment tag. *)
Inductive DocumentType : Type := COMMENT.

(** [datetime.fromtimestamp]: the instant is kept as the POSIX seconds it was
    built from; timestamps beyond the years [datetime] can hold are outside
    the model. *)
Record datetime : Type := mkDatetime { posix : Z }.
Definition fromtimestamp (t : Z) : datetime := mkDatetime t.

(** Modelled from the spec: [BasicDocument] of
    [data_source.api.basic_document] is not part of these sources; the fields
    are the keyword arguments of the constructor call in
    [_index_all_documents]. *)
Record BasicDocument : Type := mkBasicDocument {
  doc_id : string;
  doc_data_source_id : Z;
  doc_type : DocumentType;
  doc_title : string;
  doc_content : string;
  doc_timestamp : datetime;
  doc_author : string;
  doc_author_image_url : string;
  doc_location : string;
  doc_url : string
}.

Inductive LogRecord : Type :=
| EmptyResponse                 (* "Recieved empty response from ..." *)
| WorkerFed (total_fed : nat).  (* "Worker fed {total_fed} documents" *)

(** [server] is whatever the page-fetch operations talk to, [log] the
    records passed to [logging.info], [index_queue] the batches passed to
    [IndexQueue.get().feed], oldest first. *)
Record World (Srv : Type) : Type := mkWorld {
  server : Srv;
  log : list LogRecord;
  index_queue : list (list BasicDocument)
}.
Arguments mkWorld {Srv} server log index_queue.
Arguments server {Srv} w.
Arguments log {Srv} w.
Arguments index_queue {Srv} w.

Definition set_server {Srv} (w : World Srv) (s : Srv) : World Srv :=
  mkWorld s (log w) (index_queue w).

Definition logging_info {Srv} (r : LogRecord) (w : World Srv) : World Srv :=
  mkWorld (server w) (log w ++ [r]) (index_queue w).

Definition feed {Srv} (docs : list BasicDocument) (w : World Srv) : World Srv :=
  mkWorld (server w) (log w) (index_queue w ++ [docs]).

(** A page-fetch operation: it sees the query, may change the server, and
    returns a page, [None], or raises. *)
Definition Endpoint (Srv R : Type) : Type :=
  Query -> Srv -> result (option (RawPage R)) * Srv.

(** ** PaginatedFetcher ([client.py], lines 85-109) *)

Section GetObjects.
Context {Srv R O : Type}.
Variable endpoint : Endpoint Srv R.
Variable parser : RawPage R -> result (list O).

(** The local variables of [_get_objects] that live across iterations;
    [query] is the caller's dictionary. *)
Record Locals : Type := mkLocals {
  query : Query;
  paging_direction : option direction;
  is_first_page : bool;
  parsed_objects : list O
}.

(** What a traversal leaves behind: the outcome ([None]: out of fuel), the
    final contents of the caller's dictionary, the world. *)
Record Run : Type := mkRun {
  outcome : option (result (list O));
  final_query : Query;
  final_world : World Srv
}.

Fixpoint _get_objects_loop (fuel : nat) (l : Locals) (w : World Srv) : Run :=
  match fuel with
  | 0 => mkRun None (query l) w
  | S fuel' =>
      let (results, s') := endpoint (query l) (server w) in
      let w := set_server w s' in
      match results with
      | Raise e => mkRun (Some (Raise e)) (query l) w
      | Ok None =>
          mkRun (Some (Ok (parsed_objects l))) (query l)
                (logging_info EmptyResponse w)
      | Ok (Some results) =>
          match parser results with
          | Raise e => mkRun (Some (Raise e)) (query l) w
          | Ok objs =>
              let parsed_objects := parsed_objects l ++ objs in
              let next_page_cursor := cursor results in
              let paging_direction :=
                if is_first_page l
                then _get_paging_direction next_page_cursor
                else paging_direction l in
              match paging_direction with
              | None => mkRun (Some (Ok parsed_objects)) (query l) w
              | Some d =>
                  match cursor_item next_page_cursor d with
                  | None => mkRun (Some (Ok parsed_objects)) (query l) w
                  | Some token =>
                      _get_objects_loop fuel'
                        (mkLocals (<[direction_key d := QStr token]> (query l))
                                  (Some d) false parsed_objects)
                        w
                  end
              end
          end
      end
  end.

Definition _get_objects (fuel : nat) (query : Query) (w : World Srv) : Run :=
  _get_objects_loop fuel (mkLocals query None true []) w.
End GetObjects.

Arguments mkLocals {O} query paging_direction is_first_page parsed_objects.
Arguments query {O} l.
Arguments paging_direction {O} l.
Arguments is_first_page {O} l.
Arguments parsed_objects {O} l.
Arguments mkRun {Srv O} outcome final_query final_world.
Arguments outcome {Srv O} r.
Arguments final_query {Srv O} r.
Arguments final_world {Srv O} r.

(** ** Computations of the connector: state passing over the world, with
    exceptions and fuel *)

Definition M (Srv A : Type) : Type := World Srv -> option (result A) * World Srv.

Definition ret {Srv A} (a : A) : M Srv A := fun w => (Some (Ok a), w).

Definition bind {Srv A B} (m : M Srv A) (k : A -> M Srv B) : M Srv B :=
  fun w =>
    match m w with
    | (Some (Ok a), w') => k a w'
    | (Some (Raise e), w') => (Some (Raise e), w')
    | (None, w') => (None, w')
    end.

Notation "'let!' x ':=' c 'in' k" := (bind c (fun x => k))
  (at level 10, x name, c at level 100, k at level 200).

(** ** PhabricatorClient ([client.py], lines 30-73 and 161-191) *)

(** The client as far as the traversals use it: its three query methods. In
    the source they are built from [url], [token] and the HTTP session, which
    live on the [server] side of the world. *)
Record PhabricatorClient (Srv : Type) : Type := mkPhabricatorClient {
  _query_maniphest : Endpoint Srv TaskRow;
  _query_transaction : Endpoint Srv Transaction;
  _query_phriction : Endpoint Srv WikiRow
}.
Arguments mkPhabricatorClient {Srv} _ _ _.
Arguments _query_maniphest {Srv} p.
Arguments _query_transaction {Srv} p.
Arguments _query_phriction {Srv} p.

Section ClientMethods.
Context {Srv : Type}.
Variable self : PhabricatorClient Srv.
Variable fuel : nat.

Definition comments_query (obj : PhabObject) : Query :=
  {[ "objectIdentifier" := QStr (phid (base_of obj)) ]}.

Definition get_object_comments (obj : PhabObject) (date_modified : Z)
    : M Srv (list PhabObject) :=
  fun w =>
    let r := _get_objects (_query_transaction self)
               (fun results => _comment_parser results date_modified)
               fuel (comments_query obj) w in
    (outcome r, final_world r).

Definition tasks_query (date_modified : Z) : Query :=
  <["queryKey" := QStr "all"]>
    (<["constraints[modifiedStart]" := QInt date_modified]> ∅).

Definition get_all_tasks (date_modified : Z) : M Srv (list PhabObject) :=
  fun w =>
    let r := _get_objects (_query_maniphest self)
               (fun results => Ok (_task_parser results))
               fuel (tasks_query date_modified) w in
    (outcome r, final_world r).

Definition wikis_query : Query :=
  <["queryKey" := QStr "all"]>
    (<["attachments[content]" := QBool true]>
       (<["order" := QStr "newest"]> ∅)).

Definition get_all_wikis (date_modified : Z) : M Srv (list PhabObject) :=
  fun w =>
    let r := _get_objects (_query_phriction self)
               (fun results => Ok (_wiki_parser results date_modified))
               fuel wikis_query w in
    (outcome r, final_world r).
End ClientMethods.

(** ** PhabricatorDataSource ([phabricator.py]) *)

Definition FEED_BATCH_SIZE : nat := 512.

(** The attributes of the data source the synchronization reads. *)
Record PhabricatorDataSource (Srv : Type) : Type := mkPhabricatorDataSource {
  _phab : PhabricatorClient Srv;
  _data_source_id : Z;
  _last_index_time_timestamp : Z
}.
Arguments mkPhabricatorDataSource {Srv} _ _ _.
Arguments _phab {Srv} p.
Arguments _data_source_id {Srv} p.
Arguments _last_index_time_timestamp {Srv} p.

Section DataSource.
Context {Srv : Type}.
Variable self : PhabricatorDataSource Srv.

(** The body of the [for document in documents] loop up to the [append]. *)
Definition to_basic_document (document : PhabObject) : BasicDocument :=
  let title :=
    match document with
    | PhabricatorComment _ => "Comment"
    | PhabricatorWiki _ name | PhabricatorTask _ name => name
    end in
  {| doc_id := id (base_of document);
     doc_data_source_id := _data_source_id self;
     doc_type := COMMENT;
     doc_title := title;
     doc_content := contents (base_of document);
     doc_timestamp := fromtimestamp (timestamp (base_of document));
     doc_author := author_phid (base_of document);
     doc_author_image_url := "@@@";
     doc_location := "@@@";
     doc_url := "@@@" |}.

Fixpoint _index_all_documents_loop (documents : list PhabObject)
    (parsed_documents : list BasicDocument) (total_fed : nat) (w : World Srv)
    : list BasicDocument * nat * World Srv :=
  match documents with
  | [] => (parsed_documents, total_fed, w)
  | document :: rest =>
      let parsed_documents := parsed_documents ++ [to_basic_document document] in
      if (FEED_BATCH_SIZE <=? length parsed_documents)%nat then
        _index_all_documents_loop rest []
          (total_fed + length parsed_documents) (feed parsed_documents w)
      else _index_all_documents_loop rest parsed_documents total_fed w
  end.

Definition _index_all_documents (documents : list PhabObject) (w : World Srv)
    : World Srv :=
  let '(parsed_documents, total_fed, w) :=
    _index_all_documents_loop documents [] 0 w in
  let total_fed := total_fed + length parsed_documents in
  let w := feed parsed_documents w in
  if (0 <? total_fed)%nat then logging_info (WorkerFed total_fed) w else w.

Variable fuel : nat.

Definition _fetch_all_objects : M Srv (list PhabObject) :=
  let! wikis := get_all_wikis (_phab self) fuel (_last_index_time_timestamp self) in
  let! tasks := get_all_tasks (_phab self) fuel (_last_index_time_timestamp self) in
  ret (tasks ++ wikis).

Fixpoint _fetch_all_comments_loop (documents comments : list PhabObject)
    : M Srv (list PhabObject) :=
  match documents with
  | [] => ret comments
  | document :: rest =>
      let! cs := get_object_comments (_phab self) fuel document
                   (_last_index_time_timestamp self) in
      _fetch_all_comments_loop rest (comments ++ cs)
  end.

Definition _fetch_all_comments (documents : list PhabObject)
    : M Srv (list PhabObject) :=
  _fetch_all_comments_loop documents [].

Definition _feed_new_documents : M Srv unit :=
  let! phab_objects := _fetch_all_objects in
  let! comments := _fetch_all_comments phab_objects in
  let phab_objects := phab_objects ++ comments in
  fun w => (Some (Ok tt), _index_all_documents phab_objects w).
End DataSource.

(** ** A scripted page-fetch operation

    The server holds the replies it will still give, in order, and records
    every query it receives; once the script is used up it answers with the
    empty response. *)

Record Scripted (R : Type) : Type := mkScripted {
  script : list (result (option (RawPage R)));
  received : list Query
}.
Arguments mkScripted {R} script received.
Arguments script {R} s.
Arguments received {R} s.

Definition scripted_endpoint {R : Type} : Endpoint (Scripted R) R :=
  fun q s =>
    match script s with
    | [] => (Ok None, mkScripted [] (received s ++ [q]))
    | reply :: rest => (reply, mkScripted rest (received s ++ [q]))
    end.

Definition reply_page {R} (p : RawPage R) : result (option (RawPage R)) :=
  Ok (Some p).

Definition world0 {Srv} (s : Srv) : World Srv := mkWorld s [] [].

(** ** Vocabulary of the statements *)

(** The cursor field selected by a (possibly absent) direction. *)
Definition next_token (d : option direction) (c : Cursor) : option string :=
  match d with
  | None => None
  | Some d' => cursor_item c d'
  end.

(** The direction a traversal locks: the one of its first page. *)
Definition first_direction {R} (pages : list (RawPage R)) : option direction :=
  match pages with
  | [] => None
  | p :: _ => _get_paging_direction (cursor p)
  end.

(** The direction in force while the loop, in state [l], is about to fetch
    the pages [pages]. *)
Definition direction_at {R O} (l : Locals (O := O)) (pages : list (RawPage R))
    : option direction :=
  if is_first_page l then first_direction pages else paging_direction l.

(** Every query after the first is the initial one with the key of the
    locked direction set to the cursor of the page fetched just before. *)
Definition queries_follow {R} (d : direction) (q0 : Query)
    (full : list (result (option (RawPage R)))) (rcv : list Query) : Prop :=
  forall i q, rcv !! S i = Some q ->
    exists p t, full !! i = Some (reply_page p) /\
                cursor_item (cursor p) d = Some t /\
                q = <[direction_key d := QStr t]> q0.

(** The Comment parser in the words of the specification: an entry yields a
    record when its kind is "comment" and the modification time of its first
    comment payload is at least the watermark; the records come out in entry
    order. *)
Definition qualifying_comment (date_modified : Z) (t : Transaction)
    : option CommentPayload :=
  if decide (tx_type t = "comment") then
    match head (tx_comments t) with
    | Some c =>
        if decide (date_modified <= comment_dateModified c)%Z then Some c else None
    | None => None
    end
  else None.

Definition comment_parser_spec (results : RawPage Transaction) (date_modified : Z)
    : list PhabObject :=
  map mk_comment (omap (qualifying_comment date_modified) (data results)).

(** Every "comment" entry of the page carries at least one payload. *)
Definition comment_entries_have_payload (results : RawPage Transaction) : Prop :=
  Forall (fun t => tx_type t = "comment" -> tx_comments t <> []) (data results).

(** Two entries that agree on their kind and on their first payload. *)
Definition same_first_payload (t t' : Transaction) : Prop :=
  tx_type t = tx_type t' /\ head (tx_comments t) = head (tx_comments t').

(** How many records of a list carry a given [phid]. *)
Definition count_phid (k : string) (objs : list PhabObject) : nat :=
  length (filter (fun o => phid (base_of o) = k) objs).

(** The page has a row with the given [phid] modified at or after the
    watermark. *)
Definition page_has (k : string) (date_modified : Z) (page : RawPage WikiRow) : Prop :=
  Exists (fun row => wiki_phid row = k /\ (date_modified <= wiki_dateModified row)%Z)
         (data page).

#[global] Instance page_has_dec k date_modified page :
  Decision (page_has k date_modified page).
Proof. unfold page_has. apply _. Defined.

(** The dictionary the WikiPage parser builds: distinct keys, each value
    filed under its own [phid]. *)
Definition wiki_dict_ok (d : list (string * PhabObject)) : Prop :=
  NoDup (map fst d) /\ Forall (fun kv => phid (base_of kv.2) = kv.1) d.

(** The comments of a list of parents, one comment traversal per parent, run
    in order over the world: [comment_groups self fuel parents w groups w']
    when the traversal for the i-th parent returned the i-th group. *)
Inductive comment_groups {Srv} (self : PhabricatorDataSource Srv) (fuel : nat)
    : list PhabObject -> World Srv -> list (list PhabObject) -> World Srv -> Prop :=
| comment_groups_nil w : comment_groups self fuel [] w [] w
| comment_groups_cons parent parents w group w1 groups w2 :
    get_object_comments (_phab self) fuel parent (_last_index_time_timestamp self) w
      = (Some (Ok group), w1) ->
    comment_groups self fuel parents w1 groups w2 ->
    comment_groups self fuel (parent :: parents) w (group :: groups) w2.

(** ** Sample data *)

Definition sample_wiki (i k title : string) (m : Z) : WikiRow :=
  mkWikiRow i k m (mkWikiContent "PHID-USER-w" title (mkRawText "wiki text")).

Definition sample_task (i k name : string) (m : Z) : TaskRow :=
  mkTaskRow i k (mkTaskFields name (mkRawText "task text") m "PHID-USER-t").

Definition sample_payload (i k : string) (m : Z) : CommentPayload :=
  mkCommentPayload i k (mkRawText "comment text") m "PHID-USER-c".

(** Three wiki pages paged backwards: the second also carries an [after]
    cursor, the third has no [before] cursor left. *)
Definition back1 : RawPage WikiRow :=
  mkRawPage [sample_wiki "11" "PHID-WIKI-1" "Home" 30] (mkCursor (Some "b1") None).
Definition back2 : RawPage WikiRow :=
  mkRawPage [sample_wiki "12" "PHID-WIKI-2" "Setup" 20]
            (mkCursor (Some "b2") (Some "a2")).
Definition back3 : RawPage WikiRow :=
  mkRawPage [sample_wiki "13" "PHID-WIKI-3" "Notes" 10] (mkCursor None (Some "a3")).

(** A single page: both cursor fields null. *)
Definition lone_page : RawPage WikiRow :=
  mkRawPage [sample_wiki "11" "PHID-WIKI-1" "Home" 30] (mkCursor None None).

(** Two revisions of one wiki document, on two pages. *)
Definition rev_page1 : RawPage WikiRow :=
  mkRawPage [sample_wiki "21" "PHID-WIKI-1" "Home, newer" 20;
             sample_wiki "20" "PHID-WIKI-1" "Home, older" 15]
            (mkCursor None (Some "20")).
Definition rev_page2 : RawPage WikiRow :=
  mkRawPage [sample_wiki "19" "PHID-WIKI-1" "Home, oldest" 10] (mkCursor None None).

(** An endpoint that always answers with the empty response. *)
Definition silent_endpoint {Srv R} : Endpoint Srv R := fun _ s => (Ok None, s).

Definition wiki_only_client : PhabricatorClient (Scripted WikiRow) :=
  mkPhabricatorClient silent_endpoint silent_endpoint scripted_endpoint.

(** A page of transactions, watermark 100 in mind: a comment modified exactly
    at 100, an older comment, a status change without payloads, and a newer
    comment with two payloads. *)
Definition sample_transactions : RawPage Transaction :=
  mkRawPage
    [mkTransaction "comment" [sample_payload "1" "PHID-XCMT-1" 100];
     mkTransaction "comment" [sample_payload "2" "PHID-XCMT-2" 99];
     mkTransaction "status" [];
     mkTransaction "comment" [sample_payload "3" "PHID-XCMT-3" 150;
                              sample_payload "4" "PHID-XCMT-4" 160]]
    (mkCursor None None).

Definition sample_transactions_first_only : RawPage Transaction :=
  mkRawPage
    [mkTransaction "comment" [sample_payload "1" "PHID-XCMT-1" 100];
     mkTransaction "comment" [sample_payload "2" "PHID-XCMT-2" 99];
     mkTransaction "status" [];
     mkTransaction "comment" [sample_payload "3" "PHID-XCMT-3" 150]]
    (mkCursor None None).

Definition sample_transactions_no_payload : RawPage Transaction :=
  mkRawPage
    [mkTransaction "comment" [sample_payload "1" "PHID-XCMT-1" 100];
     mkTransaction "comment" []]
    (mkCursor None None).

(** A server with one task, one wiki page, and one comment on each. *)
Record SampleServer : Type := mkSampleServer {
  maniphest_side : Scripted TaskRow;
  phriction_side : Scripted WikiRow;
  transaction_pages : list (string * RawPage Transaction)
}.

Fixpoint assoc {V} (k : string) (l : list (string * V)) : option V :=
  match l with
  | [] => None
  | (k', v) :: l' => if String.eqb k' k then Some v else assoc k l'
  end.

Definition sample_client : PhabricatorClient SampleServer :=
  mkPhabricatorClient
    (fun q s =>
       let (reply, m) := scripted_endpoint q (maniphest_side s) in
       (reply, mkSampleServer m (phriction_side s) (transaction_pages s)))
    (fun q s =>
       match q !! "objectIdentifier" with
       | Some (QStr k) => (Ok (assoc k (transaction_pages s)), s)
       | _ => (Ok None, s)
       end)
    (fun q s =>
       let (reply, m) := scripted_endpoint q (phriction_side s) in
       (reply, mkSampleServer (maniphest_side s) m (transaction_pages s))).

Definition sample_server : SampleServer :=
  mkSampleServer
    (mkScripted
       [reply_page (mkRawPage [sample_task "7" "PHID-TASK-7" "Fix login" 120]
                              (mkCursor None None))] [])
    (mkScripted [reply_page lone_page] [])
    [("PHID-TASK-7",
      mkRawPage [mkTransaction "comment" [sample_payload "1" "PHID-XCMT-1" 130]]
                (mkCursor None None));
     ("PHID-WIKI-1",
      mkRawPage [mkTransaction "comment" [sample_payload "2" "PHID-XCMT-2" 140]]
                (mkCursor None None))].

Definition sample_source : PhabricatorDataSource SampleServer :=
  mkPhabricatorDataSource sample_client 1 0.

Definition sample_documents (n : nat) : list PhabObject :=
  repeat (PhabricatorComment (mkPhabricatorObject "1" "PHID-XCMT-1" "PHID-USER-c" 130
                                                  "comment text")) n.

(** ** The HTTP side of the client ([client.py], lines 30-73) *)

(** Exceptions raised on the request path, by the name of their class. *)
Definition TypeError : exn := RequestError "TypeError".
Definition HTTPError : exn := RequestError "HTTPError".
Definition KeyError : exn := RequestError "KeyError".

(** What [response.json()] decodes to, seen through the one key the code
    reads: the body is no JSON object (a list, a string, a number, [null]),
    or it is an object in which the key ["result"] is absent, holds [null],
    or holds a page. *)
Inductive JsonResult (R : Type) : Type :=
| NotAnObject
| NoResultKey
| ResultNull
| ResultPage (p : RawPage R).
Arguments NotAnObject {R}.
Arguments NoResultKey {R}.
Arguments ResultNull {R}.
Arguments ResultPage {R} p.

(** A [requests] response: [json] is the outcome of calling
    [response.json()], which raises on a body that is not JSON. *)
Record Response (R : Type) : Type := mkResponse {
  status_code : Z;
  json : result (JsonResult R)
}.
Arguments mkResponse {R} status_code json.
Arguments status_code {R} r.
Arguments json {R} r.

(** [Response.raise_for_status]: client and server error codes raise. *)
Definition raise_for_status {R} (response : Response R) : result unit :=
  if ((400 <=? status_code response) && (status_code response <? 600))%Z
  then Raise HTTPError
  else Ok tt.

(** A call of [BaseUrlSession.get]: the base address of the session, the
    address asked for, the extra positional arguments (there are none in a
    call that goes through), and the keyword
    arguments [verify], [params] ([None] when not passed) and the others,
    which this code only ever gives dictionaries to. *)
Record Request : Type := mkRequest {
  req_base_url : string;
  req_url : string;
  req_args : list Query;
  req_verify : option bool;
  req_params : option Query;
  req_kwargs : gmap string Query
}.

(** The network behind the sessions: it answers a request with a response
    or raises, and may change the server. *)
Definition Session (Srv R : Type) : Type :=
  Request -> Srv -> result (Response R) * Srv.

(** The fields of the [PhabricatorClient] dataclass. *)
Record PhabricatorClientFields : Type := mkPhabricatorClientFields {
  url : string;
  token : string;
  verify_ssl : option bool
}.

Section ClientHTTP.
Context {Srv R : Type}.
Variable urljoin : string -> string -> string.
Variable session_get : Session Srv R.
Variable self : PhabricatorClientFields.

(** [__post_init__]: the base address of [self.session]. *)
Definition api_url : string := urljoin (url self) "/api/".

(** [check_server_health] builds a session of its own on [self.url]. *)
Definition check_server_health : Srv -> result unit * Srv :=
  fun s =>
    let (r, s') :=
      session_get (mkRequest (url self) "/" [] (verify_ssl self) None ∅) s in
    match r with
    | Raise e => (Raise e, s')
    | Ok response => (raise_for_status response, s')
    end.

(** [_get_with_auth]. The call of [self.session.get] raises [TypeError]
    before anything is sent when a keyword argument is given both by name and
    through [**kwargs] ([verify] and [params] are given by name), and when
    extra positional arguments are passed on, since [get] takes the address as
    its only positional argument. *)
Definition _get_with_auth (url : string) (args : list Query)
    (kwargs : gmap string Query) : Srv -> result (Response R) * Srv :=
  fun s =>
    let params_with_token : Query := {[ "api.token" := QStr (token self) ]} in
    let params_with_token :=
      match kwargs !! "params" with
      | Some params => params ∪ params_with_token
      | None => params_with_token
      end in
    if bool_decide (is_Some (kwargs !! "verify") \/ is_Some (kwargs !! "params"))
    then (Raise TypeError, s)
    else
      match args with
      | _ :: _ => (Raise TypeError, s)
      | [] =>
          let (r, s') :=
            session_get (mkRequest api_url url [] (verify_ssl self)
                                   (Some params_with_token) kwargs) s in
          match r with
          | Raise e => (Raise e, s')
          | Ok response =>
              match raise_for_status response with
              | Raise e => (Raise e, s')
              | Ok _ => (Ok response, s')
              end
          end
      end.

Definition validate_authentication : Srv -> result unit * Srv :=
  fun s =>
    let (r, s') := _get_with_auth "/" [] ∅ s in
    match r with
    | Raise e => (Raise e, s')
    | Ok response => (raise_for_status response, s')
    end.

(** [_query_endpoint]: [response.json()["result"]]; subscripting a body
    that is no object with a string raises [TypeError]. *)
Definition _query_endpoint (endpoint : string) : Endpoint Srv R :=
  fun query s =>
    let (r, s') := _get_with_auth endpoint [] {[ "data" := query ]} s in
    match r with
    | Raise e => (Raise e, s')
    | Ok response =>
        match json response with
        | Raise e => (Raise e, s')
        | Ok NotAnObject => (Raise TypeError, s')
        | Ok NoResultKey => (Raise KeyError, s')
        | Ok ResultNull => (Ok None, s')
        | Ok (ResultPage p) => (Ok (Some p), s')
        end
    end.
End ClientHTTP.

(** The three query methods, each reading the replies at its own row type. *)
Definition query_maniphest {Srv} (urljoin : string -> string -> string)
    (session_get : Session Srv TaskRow) (self : PhabricatorClientFields)
    : Endpoint Srv TaskRow :=
  _query_endpoint urljoin session_get self "maniphest.search".

Definition query_transaction {Srv} (urljoin : string -> string -> string)
    (session_get : Session Srv Transaction) (self : PhabricatorClientFields)
    : Endpoint Srv Transaction :=
  _query_endpoint urljoin session_get self "transaction.search".

Definition query_phriction {Srv} (urljoin : string -> string -> string)
    (session_get : Session Srv WikiRow) (self : PhabricatorClientFields)
    : Endpoint Srv WikiRow :=
  _query_endpoint urljoin session_get self "phriction.content.search".

(** The client whose query methods go through the HTTP session. *)
Definition http_client {Srv} (urljoin : string -> string -> string)
    (tasks_get : Session Srv TaskRow) (transactions_get : Session Srv Transaction)
    (wikis_get : Session Srv WikiRow) (self : PhabricatorClientFields)
    : PhabricatorClient Srv :=
  mkPhabricatorClient (query_maniphest urljoin tasks_get self)
                      (query_transaction urljoin transactions_get self)
                      (query_phriction urljoin wikis_get self).

(** ** [validate_config] ([phabricator.py], lines 27-35) *)

(** Building the client from the configuration with [verify_ssl=False] added
    (the configuration is unpacked into keyword arguments): the dataclass
    constructor takes [url] and [token]; a missing one, an unknown key, or a
    [verify_ssl] of the configuration's own raises [TypeError]. *)
Definition new_client (config : gmap string string) : result PhabricatorClientFields :=
  match config !! "url", config !! "token" with
  | Some u, Some t =>
      if bool_decide (dom config = ({[ "url"; "token" ]} : gset string))
      then Ok (mkPhabricatorClientFields u t (Some false))
      else Raise TypeError
  | _, _ => Raise TypeError
  end.

(** [validate_config] returns, or raises [InvalidDataSourceConfig] from the
    exception it caught. *)
Inductive ConfigCheck : Type :=
| ConfigValid
| InvalidDataSourceConfig (cause : exn).

Definition validate_config {Srv R} (urljoin : string -> string -> string)
    (session_get : Session Srv R) (config : gmap string string)
    : Srv -> ConfigCheck * Srv :=
  fun s =>
    match new_client config with
    | Raise e => (InvalidDataSourceConfig e, s)
    | Ok phab =>
        match check_server_health session_get phab s with
        | (Raise e, s') => (InvalidDataSourceConfig e, s')
        | (Ok _, s') =>
            match validate_authentication urljoin session_get phab s' with
            | (Raise e, s'') => (InvalidDataSourceConfig e, s'')
            | (Ok _, s'') => (ConfigValid, s'')
            end
        end
    end.

(** A session that answers from a list of replies, in order, and records
    every request; once the list is used up it answers 200 with a [null]
    result. *)
Record Recorded (R : Type) : Type := mkRecorded {
  replies : list (result (Response R));
  requests : list Request
}.
Arguments mkRecorded {R} replies requests.
Arguments replies {R} r.
Arguments requests {R} r.

Definition recorded_session {R : Type} : Session (Recorded R) R :=
  fun req s =>
    match replies s with
    | [] => (Ok (mkResponse 200 (Ok ResultNull)), mkRecorded [] (requests s ++ [req]))
    | reply :: rest => (reply, mkRecorded rest (requests s ++ [req]))
    end.

(** [urljoin] for a base without a path: the joined address is the base
    followed by the path. *)
Definition join_root (base path : string) : string := base ++ path.

(** What a fetch may do to the index queue and the log: nothing to the
    queue, and only records of empty responses to the log. *)
Definition fetch_frame {Srv} (w w' : World Srv) : Prop :=
  index_queue w' = index_queue w /\
  exists n, log w' = log w ++ repeat EmptyResponse n.

(** The sample server with the wiki page's comment entry lacking its payload. *)
Definition broken_server : SampleServer :=
  mkSampleServer (maniphest_side sample_server) (phriction_side sample_server)
    [("PHID-TASK-7",
      mkRawPage [mkTransaction "comment" [sample_payload "1" "PHID-XCMT-1" 130]]
                (mkCursor None None));
     ("PHID-WIKI-1",
      mkRawPage [mkTransaction "comment" []] (mkCursor None None))].

(** A request as a traversal started with query [q0] sends it to a Conduit
    method: to the API address, with the token as the only parameter, the
    client's [verify] setting, and as [data] a query that agrees with [q0] on
    every key but the two cursor keys. *)
Definition conduit_request (urljoin : string -> string -> string)
    (self : PhabricatorClientFields) (endpoint : string) (q0 : Query)
    (req : Request) : Prop :=
  req_base_url req = urljoin (url self) "/api/" /\
  req_url req = endpoint /\
  req_args req = [] /\
  req_verify req = verify_ssl self /\
  req_params req = Some {[ "api.token" := QStr (token self) ]} /\
  exists q, req_kwargs req = {[ "data" := q ]} /\
            forall k, k <> "before" -> k <> "after" -> q !! k = q0 !! k.

(** The status is none of the client and server error codes. *)
Definition status_ok (status : Z) : Prop := ~ (400 <= status < 600)%Z.

(** Pages paged forwards: the second also carries a [before] cursor. *)
Definition fwd1 : RawPage WikiRow :=
  mkRawPage [sample_wiki "31" "PHID-WIKI-4" "Intro" 30] (mkCursor None (Some "a1")).
Definition fwd2 : RawPage WikiRow :=
  mkRawPage [sample_wiki "32" "PHID-WIKI-5" "Usage" 20]
            (mkCursor (Some "b2") (Some "a2")).
Definition fwd3 : RawPage WikiRow :=
  mkRawPage [sample_wiki "33" "PHID-WIKI-6" "FAQ" 10] (mkCursor None None).

(** A server that answers every query with the same page and its [before]
    cursor. *)
Definition endless_endpoint : Endpoint unit WikiRow :=
  fun _ s => (Ok (Some back1), s).

(** Two pages of tasks; the task on the second is older than watermark 100. *)
Definition task_page1 : RawPage TaskRow :=
  mkRawPage [sample_task "7" "PHID-TASK-7" "Fix login" 120;
             sample_task "8" "PHID-TASK-8" "Add search" 110]
            (mkCursor None (Some "8")).
Definition task_page2 : RawPage TaskRow :=
  mkRawPage [sample_task "9" "PHID-TASK-9" "Old task" 1] (mkCursor None None).


Definition sample_fields : PhabricatorClientFields :=
  mkPhabricatorClientFields "https://phab.example" "api-token" (Some false).

Definition sample_config : gmap string string :=
  {[ "url" := "https://phab.example"; "token" := "api-token" ]}.

Definition ok_reply {R} (body : JsonResult R) : result (Response R) :=
  Ok (mkResponse 200 (Ok body)).

(** A session that answers every request with a [null] result. *)
Definition silent_session {Srv R} : Session Srv R :=
  fun _ s => (Ok (mkResponse 200 (Ok ResultNull)), s).

Definition sample_http_client : PhabricatorClient (Recorded TaskRow) :=
  http_client join_root recorded_session silent_session silent_session sample_fields.

(** A configuration that brings a [verify_ssl] of its own. *)
Definition strict_config : gmap string string :=
  <["verify_ssl" := "true"]> sample_config.

(** ** [get_config_fields] ([phabricator.py], lines 17-24) *)

(** [ConfigField] and [HTMLInputType] of [data_source.api.base_data_source]
    are not part of these sources: the fields are the keyword arguments of the
    two constructor calls, the input types the two that are used. *)
Inductive HTMLInputType : Type := TEXT | PASSWORD.

Record ConfigField : Type := mkConfigField {
  field_label : string;
  field_name : string;
  field_placeholder : string;
  field_input_type : HTMLInputType
}.

Definition get_config_fields : list ConfigField :=
  [mkConfigField "Phabricator Server" "url" "https://phabricator.server.com/" TEXT;
   mkConfigField "Access Token" "token" "paste-your-access-token-here" PASSWORD].

(** * Properties *)

(** ** PaginatedFetcher against an arbitrary page-fetch operation *)

Section FetcherGeneric.
Context {Srv R O : Type}.
Variable endpoint : Endpoint Srv R.
Variable parser : RawPage R -> result (list O).

Lemma loop_empty_response fuel (l : Locals (O := O)) w s' :
  endpoint (query l) (server w) = (Ok None, s') ->
  _get_objects_loop endpoint parser (S fuel) l w =
    mkRun (Some (Ok (parsed_objects l))) (query l)
          (logging_info EmptyResponse (set_server w s')).
Proof. intros H. cbn [_get_objects_loop]. rewrite H. reflexivity. Qed.


(** The traversal never touches the index queue, and logs at most the one
    record of an empty response. *)
Lemma loop_frame : forall fuel (l : Locals (O := O)) w,
  let r := _get_objects_loop endpoint parser fuel l w in
  index_queue (final_world r) = index_queue w /\
  (log (final_world r) = log w \/
   log (final_world r) = log w ++ [EmptyResponse]).
Proof.
  induction fuel as [|fuel IH]; intros l w; cbn [_get_objects_loop].
  - cbn. auto.
  - destruct (endpoint (query l) (server w)) as [[[p|]|e] s']; cbn; auto.
    destruct (parser p) as [objs|e]; cbn; auto.
    destruct (if is_first_page l then _ else _) as [d|]; cbn; auto.
    destruct (cursor_item (cursor p) d) as [t|]; cbn; auto.
    match goal with |- context [_get_objects_loop _ _ fuel ?l' ?w'] =>
      specialize (IH l' w') end.
    exact IH.
Qed.

End FetcherGeneric.

(** ** PaginatedFetcher against a scripted page-fetch operation *)

Section FetcherScripted.
Context {R O : Type}.
Variable parser : RawPage R -> result (list O).

Local Abbreviation loop :=
  (_get_objects_loop (Srv := Scripted R) scripted_endpoint parser).

Lemma loop_page fuel (l : Locals (O := O)) w p scr objs :
  script (server w) = reply_page p :: scr ->
  parser p = Ok objs ->
  loop (S fuel) l w =
    let w' := set_server w (mkScripted scr (received (server w) ++ [query l])) in
    let acc := parsed_objects l ++ objs in
    match direction_at l [p] with
    | None => mkRun (Some (Ok acc)) (query l) w'
    | Some d =>
        match cursor_item (cursor p) d with
        | None => mkRun (Some (Ok acc)) (query l) w'
        | Some t =>
            loop fuel
              (mkLocals (<[direction_key d := QStr t]> (query l)) (Some d) false acc)
              w'
        end
    end.
Proof.
  intros Hs Hp. cbn [_get_objects_loop].
  unfold scripted_endpoint. rewrite Hs. unfold reply_page. rewrite Hp.
  reflexivity.
Qed.

(** Pages that all carry the selected cursor field, followed by the empty
    response. *)
Lemma scripted_until_empty : forall ps objss fuel (l : Locals (O := O)) w rest,
  script (server w) = map reply_page ps ++ Ok None :: rest ->
  Forall2 (fun p objs => parser p = Ok objs) ps objss ->
  Forall (fun p => is_Some (next_token (direction_at l ps) (cursor p))) ps ->
  length ps < fuel ->
  let r := loop fuel l w in
  outcome r = Some (Ok (parsed_objects l ++ concat objss)) /\
  script (server (final_world r)) = rest /\
  length (received (server (final_world r))) =
    length (received (server w)) + S (length ps) /\
  log (final_world r) = log w ++ [EmptyResponse].
Proof.
  induction ps as [|p ps IH]; intros objss fuel l w rest Hs Hp Hc Hfuel;
    destruct fuel as [|fuel]; try (cbn in Hfuel; lia);
    inversion Hp as [|? objs ? objss' Hp1 Hp2]; subst.
  - erewrite loop_empty_response.
    2:{ unfold scripted_endpoint. rewrite Hs. reflexivity. }
    cbn. rewrite app_nil_r, length_app. cbn. repeat split; lia.
  - cbn [map app] in Hs. cbn zeta. rewrite (loop_page _ _ _ _ _ _ Hs Hp1).
    inversion Hc as [|? ? Hc1 Hc2]; subst.
    assert (Hd : direction_at l [p] = direction_at l (p :: ps))
      by (unfold direction_at; reflexivity).
    rewrite Hd. destruct (direction_at l (p :: ps)) as [d|] eqn:Ed;
      [|destruct Hc1 as [? Hc1]; discriminate].
    cbn in Hc1. destruct Hc1 as [t Ht]. rewrite Ht. cbn zeta.
    match goal with |- context [loop fuel ?l' ?w'] =>
      specialize (IH objss' fuel l' w' rest) end.
    cbn in IH. destruct IH as (I1 & I2 & I3 & I4);
      [reflexivity | exact Hp2 | exact Hc2 | cbn in Hfuel; lia | ].
    rewrite I1, I2, I3, I4, length_app. cbn.
    rewrite <- app_assoc. repeat split. lia.
Qed.

(** Pages that all carry the selected cursor field, followed by one that
    does not. *)
Lemma scripted_until_last : forall init objss last objs fuel (l : Locals (O := O)) w rest,
  script (server w) = map reply_page (init ++ [last]) ++ rest ->
  Forall2 (fun p objs => parser p = Ok objs) init objss ->
  parser last = Ok objs ->
  Forall (fun p => is_Some (next_token (direction_at l (init ++ [last])) (cursor p)))
         init ->
  next_token (direction_at l (init ++ [last])) (cursor last) = None ->
  length init < fuel ->
  let r := loop fuel l w in
  outcome r = Some (Ok (parsed_objects l ++ concat objss ++ objs)) /\
  script (server (final_world r)) = rest /\
  length (received (server (final_world r))) =
    length (received (server w)) + S (length init) /\
  log (final_world r) = log w.
Proof.
  induction init as [|p ps IH];
    intros objss last objs fuel l w rest Hs Hp Hl Hc Hn Hfuel;
    destruct fuel as [|fuel]; try (cbn in Hfuel; lia);
    inversion Hp as [|? objs1 ? objss' Hp1 Hp2]; subst.
  - cbn [map app] in Hs. cbn zeta. rewrite (loop_page _ _ _ _ _ _ Hs Hl).
    cbn [app] in Hn. cbn zeta.
    assert (Hstop : forall A (stop : A) (k : direction -> string -> A),
      match direction_at l [last] with
      | None => stop
      | Some d => match cursor_item (cursor last) d with
                  | None => stop
                  | Some t => k d t
                  end
      end = stop).
    { intros A stop k. destruct (direction_at l [last]) as [d|]; [|reflexivity].
      cbn in Hn. rewrite Hn. reflexivity. }
    rewrite Hstop. cbn. rewrite length_app. cbn. repeat split; lia.
  - cbn [map app] in Hs. cbn zeta. rewrite (loop_page _ _ _ _ _ _ Hs Hp1).
    inversion Hc as [|? ? Hc1 Hc2]; subst.
    assert (Hd : direction_at l [p] = direction_at l ((p :: ps) ++ [last]))
      by (unfold direction_at; reflexivity).
    rewrite Hd. destruct (direction_at l ((p :: ps) ++ [last])) as [d|] eqn:Ed;
      [|destruct Hc1 as [? Hc1]; discriminate].
    cbn in Hc1. destruct Hc1 as [t Ht]. rewrite Ht. cbn zeta.
    match goal with |- context [loop fuel ?l' ?w'] =>
      specialize (IH objss' last objs fuel l' w' rest) end.
    cbn in IH. destruct IH as (I1 & I2 & I3 & I4);
      [reflexivity | exact Hp2 | exact Hl | exact Hc2 | exact Hn
      | cbn in Hfuel; lia | ].
    rewrite I1, I2, I3, I4, length_app. cbn.
    rewrite <- !app_assoc. repeat split. lia.
Qed.

(** A first page with both cursor fields null ends the traversal, whatever
    the parser does with it. *)
Lemma scripted_single_page fuel q0 w p scr :
  script (server w) = reply_page p :: scr ->
  before (cursor p) = None ->
  after (cursor p) = None ->
  let r := _get_objects scripted_endpoint parser (S fuel) q0 w in
  outcome r = Some (match parser p with Ok objs => Ok objs | Raise e => Raise e end) /\
  received (server (final_world r)) = received (server w) ++ [q0] /\
  script (server (final_world r)) = scr /\
  final_query r = q0.
Proof.
  intros Hs Hb Ha. unfold _get_objects. cbn [_get_objects_loop].
  unfold scripted_endpoint. rewrite Hs. unfold reply_page.
  destruct (parser p) as [objs|e]; cbn; [|auto].
  unfold _get_paging_direction. rewrite Hb, Ha. cbn. auto.
Qed.

Lemma loop_queries_follow d q0 full : forall fuel (l : Locals (O := O)) w consumed,
  is_first_page l = false ->
  paging_direction l = Some d ->
  full = consumed ++ script (server w) ->
  length consumed = length (received (server w)) ->
  (query l = q0 \/ exists t, query l = <[direction_key d := QStr t]> q0) ->
  queries_follow d q0 full (received (server w) ++ [query l]) ->
  queries_follow d q0 full (received (server (final_world (loop fuel l w)))).
Proof.
  induction fuel as [|fuel IH]; intros l w consumed Hf Hd Hfull Hlen Hq Hinv.
  - cbn. intros i q Hi. apply (Hinv i q).
    apply lookup_app_l_Some. exact Hi.
  - cbn [_get_objects_loop]. unfold scripted_endpoint.
    destruct (script (server w)) as [|[[p|]|e] scr] eqn:Es; cbn; try exact Hinv.
    destruct (parser p) as [objs|e]; cbn; try exact Hinv.
    rewrite Hf, Hd.
    destruct (cursor_item (cursor p) d) as [t|] eqn:Et; cbn; try exact Hinv.
    apply (IH _ _ (consumed ++ [Ok (Some p)])); cbn; try reflexivity.
    + rewrite <- app_assoc. exact Hfull.
    + rewrite !length_app. cbn. lia.
    + right. exists t. destruct Hq as [->|[t0 ->]]; [reflexivity|].
      apply insert_insert_eq.
    + intros i q Hi.
      destruct (decide (S i < length (received (server w) ++ [query l]))) as [Hlt|Hge].
      * apply (Hinv i q). rewrite lookup_app_l in Hi by exact Hlt. exact Hi.
      * rewrite lookup_app_r in Hi by lia.
        rewrite length_app in Hi, Hge. cbn in Hi, Hge.
        destruct (S i - (length (received (server w)) + 1)) as [|k] eqn:Ek;
          [|destruct k; discriminate].
        cbn in Hi. injection Hi as <-.
        exists p, t. split; [|split; [exact Et|]].
        -- rewrite Hfull. rewrite lookup_app_r by lia.
           replace (i - length consumed) with 0 by lia. reflexivity.
        -- destruct Hq as [->|[t0 ->]]; [reflexivity|].
           apply insert_insert_eq.
Qed.
End FetcherScripted.

(** ** Traversals *)

(** C6. Served [N] pages of which the first [N-1] carry the cursor field of
    the locked direction and the last one does not, the traversal calls the
    page-fetch operation exactly [N] times and returns the records of the [N]
    pages in order; and a first page whose cursor has both fields null is the
    only page fetched, after which the traversal ends. *)
Theorem fetches_exactly_the_pages {R O} (parser : RawPage R -> result (list O)) :
  (forall (init : list (RawPage R)) (last : RawPage R) objss objs rest fuel q0
          (w : World (Scripted R)),
      let pages := init ++ [last] in
      script (server w) = map reply_page pages ++ rest ->
      received (server w) = [] ->
      Forall (fun p => is_Some (next_token (first_direction pages) (cursor p))) init ->
      next_token (first_direction pages) (cursor last) = None ->
      Forall2 (fun p objs => parser p = Ok objs) init objss ->
      parser last = Ok objs ->
      length pages <= fuel ->
      let r := _get_objects scripted_endpoint parser fuel q0 w in
      length (received (server (final_world r))) = length pages /\
      script (server (final_world r)) = rest /\
      outcome r = Some (Ok (concat objss ++ objs))) /\
  (forall (p : RawPage R) rest fuel q0 (w : World (Scripted R)),
      script (server w) = reply_page p :: rest ->
      received (server w) = [] ->
      before (cursor p) = None ->
      after (cursor p) = None ->
      let r := _get_objects scripted_endpoint parser (S fuel) q0 w in
      length (received (server (final_world r))) = 1 /\
      script (server (final_world r)) = rest /\
      is_Some (outcome r)).
Proof.
  split.
  - intros init last objss objs rest fuel q0 w pages Hs Hr Hc Hn Hp Hl Hfuel r.
    subst r pages. unfold _get_objects.
    destruct (scripted_until_last parser init objss last objs fuel
                (mkLocals q0 None true []) w rest) as (H1 & H2 & H3 & _);
      try assumption.
    + rewrite length_app in Hfuel. cbn in Hfuel. lia.
    + cbn in H1. rewrite H1, H2, H3, Hr, length_app. cbn. repeat split. lia.
  - intros p rest fuel q0 w Hs Hr Hb Ha r.
    destruct (scripted_single_page parser fuel q0 w p rest Hs Hb Ha)
      as (H1 & H2 & H3 & _).
    subst r. rewrite H1, H2, H3, Hr. cbn. repeat split. eauto.
Qed.

(** C7. When the page-fetch operation answers with the empty response, at the
    first call or after any number of pages that each carried the cursor field
    of the locked direction, the traversal returns, without raising, exactly
    the records parsed from the pages before it; and this holds at every
    iteration of the loop, for any page-fetch operation: the value returned is
    the accumulator as it stands. *)
Theorem empty_response_returns_accumulated {R O} (parser : RawPage R -> result (list O)) :
  (forall (ps : list (RawPage R)) objss rest fuel q0 (w : World (Scripted R)),
      script (server w) = map reply_page ps ++ Ok None :: rest ->
      Forall (fun p => is_Some (next_token (first_direction ps) (cursor p))) ps ->
      Forall2 (fun p objs => parser p = Ok objs) ps objss ->
      length ps < fuel ->
      let r := _get_objects scripted_endpoint parser fuel q0 w in
      outcome r = Some (Ok (concat objss)) /\
      script (server (final_world r)) = rest) /\
  (forall Srv (endpoint : Endpoint Srv R) fuel (l : Locals (O := O)) w s',
      endpoint (query l) (server w) = (Ok None, s') ->
      outcome (_get_objects_loop endpoint parser (S fuel) l w) =
        Some (Ok (parsed_objects l))).
Proof.
  split.
  - intros ps objss rest fuel q0 w Hs Hc Hp Hfuel r. subst r. unfold _get_objects.
    destruct (scripted_until_empty parser ps objss fuel
                (mkLocals q0 None true []) w rest) as (H1 & H2 & _);
      try assumption.
    cbn in H1. auto.
  - intros Srv endpoint fuel l w s' H.
    rewrite (loop_empty_response endpoint parser fuel l w s' H). reflexivity.
Qed.


(** ** The Comment parser *)

Lemma comment_loop_spec date_modified : forall ts acc,
  Forall (fun t => tx_type t = "comment" -> tx_comments t <> []) ts ->
  _comment_parser_loop ts date_modified acc =
    Ok (acc ++ map mk_comment (omap (qualifying_comment date_modified) ts)).
Proof.
  induction ts as [|t ts IH]; intros acc Hwf; cbn [_comment_parser_loop];
    unfold _comment_parser_body.
  - cbn. rewrite app_nil_r. reflexivity.
  - inversion Hwf as [|? ? Ht Hts]; subst. cbn [omap list_omap].
    unfold qualifying_comment at 1.
    destruct (String.eqb_spec (tx_type t) "comment") as [E|E].
    + rewrite decide_True by exact E.
      destruct (tx_comments t) as [|c cs] eqn:Ec; [destruct (Ht E); reflexivity|].
      cbn [head]. destruct (Z.leb_spec date_modified (comment_dateModified c)).
      * rewrite decide_True by assumption. rewrite IH by assumption.
        cbn. rewrite <- app_assoc. reflexivity.
      * rewrite decide_False by lia. apply IH. assumption.
    + rewrite decide_False by exact E. apply IH. assumption.
Qed.

Lemma comment_loop_raises date_modified : forall ts acc,
  Exists (fun t => tx_type t = "comment" /\ tx_comments t = []) ts ->
  _comment_parser_loop ts date_modified acc = Raise IndexError.
Proof.
  induction ts as [|t ts IH]; intros acc Hex; [inversion Hex|].
  cbn [_comment_parser_loop]; unfold _comment_parser_body.
  destruct (String.eqb_spec (tx_type t) "comment") as [E|E].
  - destruct (tx_comments t) as [|c cs] eqn:Ec; [reflexivity|].
    assert (Hts : Exists (fun t => tx_type t = "comment" /\ tx_comments t = []) ts).
    { inversion Hex as [? ? [_ H]|]; subst; [congruence|assumption]. }
    destruct (_ <=? _)%Z; apply IH; exact Hts.
  - apply IH. inversion Hex as [? ? [H _]|]; subst; [contradiction|assumption].
Qed.

Lemma comment_loop_first_payload date_modified : forall ts ts' acc,
  Forall2 same_first_payload ts ts' ->
  _comment_parser_loop ts date_modified acc =
  _comment_parser_loop ts' date_modified acc.
Proof.
  induction ts as [|t ts IH]; intros ts' acc H;
    inversion H as [|? t' ? ts'' [Hk Hh] Hrest]; subst; [reflexivity|].
  cbn [_comment_parser_loop]; unfold _comment_parser_body. rewrite <- Hk.
  destruct (String.eqb (tx_type t) "comment"); [|apply IH; assumption].
  destruct (tx_comments t) as [|c cs], (tx_comments t') as [|c' cs'];
    cbn in Hh; try discriminate; [reflexivity|].
  injection Hh as <-.
  destruct (_ <=? _)%Z; apply IH; assumption.
Qed.

Lemma payload_or_empty (ts : list Transaction) :
  Forall (fun t => tx_type t = "comment" -> tx_comments t <> []) ts \/
  Exists (fun t => tx_type t = "comment" /\ tx_comments t = []) ts.
Proof.
  induction ts as [|t ts [IH|IH]]; [left; constructor| |right; constructor 2; exact IH].
  destruct (decide (tx_type t = "comment")) as [E|E].
  - destruct (tx_comments t) as [|c cs] eqn:Ec.
    + right. constructor. auto.
    + left. constructor; [|exact IH]. rewrite Ec. discriminate.
  - left. constructor; [|exact IH]. intros E'. contradiction.
Qed.

(** C5. For every entry of every page and every watermark, the Comment parser
    adds a record for the entry exactly when the entry's kind is "comment" and
    its first payload was modified at or after the watermark: an entry of
    another kind, or a comment older than the watermark, leaves the
    accumulated list as it is and raises nothing, and a comment modified
    exactly at the watermark is added. On a page whose "comment" entries each
    carry a payload the parser therefore returns, without raising, the records
    of the qualifying entries in entry order and nothing else. *)
Theorem comment_parser_keeps_recent_comments (date_modified : Z) :
  (forall (t : Transaction) (acc : list PhabObject),
      (tx_type t <> "comment" ->
       _comment_parser_body t date_modified acc = Ok acc) /\
      (forall c, tx_type t = "comment" -> head (tx_comments t) = Some c ->
         ((comment_dateModified c < date_modified)%Z ->
          _comment_parser_body t date_modified acc = Ok acc) /\
         ((date_modified <= comment_dateModified c)%Z ->
          _comment_parser_body t date_modified acc = Ok (acc ++ [mk_comment c])))) /\
  (forall results : RawPage Transaction,
      comment_entries_have_payload results ->
      _comment_parser results date_modified =
        Ok (comment_parser_spec results date_modified) /\
      (forall r, r ∈ comment_parser_spec results date_modified <->
         exists t c, t ∈ data results /\ tx_type t = "comment" /\
                     head (tx_comments t) = Some c /\
                     (date_modified <= comment_dateModified c)%Z /\
                     r = mk_comment c) /\
      (forall t c, t ∈ data results -> tx_type t = "comment" ->
         head (tx_comments t) = Some c -> comment_dateModified c = date_modified ->
         mk_comment c ∈ comment_parser_spec results date_modified)).
Proof.
  split.
  - intros t acc. unfold _comment_parser_body. split.
    + intros E. apply String.eqb_neq in E. rewrite E. reflexivity.
    + intros c E Eh. apply String.eqb_eq in E. rewrite E.
      destruct (tx_comments t) as [|c' cs]; [discriminate|].
      injection Eh as ->. split; intros H.
      * apply Z.leb_gt in H. rewrite H. reflexivity.
      * apply Z.leb_le in H. rewrite H. reflexivity.
  - intros results Hwf.
    assert (Hmem : forall r, r ∈ comment_parser_spec results date_modified <->
       exists t c, t ∈ data results /\ tx_type t = "comment" /\
                   head (tx_comments t) = Some c /\
                   (date_modified <= comment_dateModified c)%Z /\
                   r = mk_comment c).
    { intros r. unfold comment_parser_spec. rewrite list_elem_of_fmap. split.
      - intros (c & -> & Hc). apply list_elem_of_omap in Hc as (t & Ht & Hq).
        unfold qualifying_comment in Hq.
        destruct (decide (tx_type t = "comment")) as [E|]; [|discriminate].
        destruct (head (tx_comments t)) as [c'|] eqn:Eh; [|discriminate].
        destruct (decide (date_modified <= comment_dateModified c')%Z);
          [|discriminate].
        injection Hq as ->. exists t, c. auto.
      - intros (t & c & Ht & E & Eh & Hle & ->). exists c. split; [reflexivity|].
        apply list_elem_of_omap. exists t. split; [exact Ht|].
        unfold qualifying_comment. rewrite decide_True by exact E. rewrite Eh.
        rewrite decide_True by exact Hle. reflexivity. }
    split; [|split].
    + unfold _comment_parser. rewrite comment_loop_spec by exact Hwf. reflexivity.
    + exact Hmem.
    + intros t c Ht E Eh Heq. apply Hmem. exists t, c.
      repeat split; try assumption. lia.
Qed.

(** C9. The Comment parser looks at the first payload of an entry only: pages
    whose entries agree on kind and first payload parse alike. A "comment"
    entry with an empty payload list makes the parser raise [IndexError] for
    the whole page, and the parser returns a list exactly when every "comment"
    entry of the page carries a payload. *)
Theorem comment_parser_reads_first_payload (date_modified : Z) :
  (forall results results' : RawPage Transaction,
      Forall2 same_first_payload (data results) (data results') ->
      _comment_parser results date_modified = _comment_parser results' date_modified) /\
  (forall results : RawPage Transaction,
      Exists (fun t => tx_type t = "comment" /\ tx_comments t = []) (data results) ->
      _comment_parser results date_modified = Raise IndexError) /\
  (forall results : RawPage Transaction,
      (exists out, _comment_parser results date_modified = Ok out) <->
      comment_entries_have_payload results).
Proof.
  split; [|split].
  - intros results results' H. apply comment_loop_first_payload. exact H.
  - intros results H. apply comment_loop_raises. exact H.
  - intros results. split.
    + intros [out Hout]. destruct (payload_or_empty (data results)) as [H|H];
        [exact H|].
      unfold _comment_parser in Hout.
      rewrite (comment_loop_raises date_modified _ [] H) in Hout. discriminate.
    + intros H. eexists. unfold _comment_parser. apply comment_loop_spec. exact H.
Qed.

(** ** The WikiPage parser *)

Lemma dict_setitem_keys {V} (d : list (string * V)) k v :
  map fst (dict_setitem d k v) =
    if decide (k ∈ map fst d) then map fst d else map fst d ++ [k].
Proof.
  induction d as [|[k' v'] d IH]; cbn.
  - rewrite decide_False by apply not_elem_of_nil. reflexivity.
  - destruct (String.eqb_spec k' k) as [->|Hne]; cbn.
    + rewrite decide_True by apply list_elem_of_here. reflexivity.
    + rewrite IH. destruct (decide (k ∈ map fst d)) as [Hin|Hnin].
      * rewrite decide_True by (apply list_elem_of_further; exact Hin). reflexivity.
      * rewrite decide_False; [reflexivity|].
        intros Hin. apply elem_of_cons in Hin as [->|Hin]; contradiction.
Qed.

Lemma dict_setitem_values {V} (P : string -> V -> Prop) (d : list (string * V)) k v :
  Forall (fun kv => P kv.1 kv.2) d -> P k v ->
  Forall (fun kv => P kv.1 kv.2) (dict_setitem d k v).
Proof.
  induction d as [|[k' v'] d IH]; intros Hd Hkv; cbn.
  - constructor; [exact Hkv|constructor].
  - inversion Hd as [|? ? H1 H2]; subst.
    destruct (String.eqb_spec k' k) as [->|Hne]; constructor; auto.
Qed.

Lemma wiki_loop_ok date_modified : forall rows d,
  wiki_dict_ok d ->
  wiki_dict_ok (_wiki_parser_loop rows date_modified d) /\
  forall k, k ∈ map fst (_wiki_parser_loop rows date_modified d) <->
    k ∈ map fst d \/
    Exists (fun row => wiki_phid row = k /\ (date_modified <= wiki_dateModified row)%Z)
           rows.
Proof.
  induction rows as [|row rows IH]; intros d Hd; cbn [_wiki_parser_loop].
  - split; [exact Hd|]. intros k. rewrite Exists_nil. tauto.
  - destruct (Z.leb_spec date_modified (wiki_dateModified row)) as [Hle|Hlt].
    + destruct (IH (dict_setitem d (wiki_phid row) (mk_wiki row))) as [IH1 IH2].
      { destruct Hd as [Hnd Hv]. split.
        - rewrite dict_setitem_keys. case_decide; [exact Hnd|].
          apply NoDup_app. repeat split; [exact Hnd| |apply NoDup_singleton].
          intros x Hx Hx'. apply list_elem_of_singleton in Hx'. subst. contradiction.
        - apply (dict_setitem_values (fun k v => phid (base_of v) = k)); auto. }
      split; [exact IH1|]. intros k. rewrite IH2, dict_setitem_keys, Exists_cons.
      case_decide as Hin.
      * split; [tauto|]. intros [H|[[<- _]|H]]; auto.
      * rewrite elem_of_app, list_elem_of_singleton. split.
        -- intros [[H| ->]|H]; auto.
        -- intros [H|[[<- _]|H]]; auto.
    + destruct (IH d Hd) as [IH1 IH2]. split; [exact IH1|].
      intros k. rewrite IH2, Exists_cons. split; [tauto|].
      intros [H|[[_ H]|H]]; auto. lia.
Qed.

Lemma wiki_parser_phids (results : RawPage WikiRow) date_modified :
  NoDup (map (fun o => phid (base_of o)) (_wiki_parser results date_modified)) /\
  forall k, k ∈ map (fun o => phid (base_of o)) (_wiki_parser results date_modified)
            <-> page_has k date_modified results.
Proof.
  destruct (wiki_loop_ok date_modified (data results) []) as [[Hnd Hv] Hk].
  { split; constructor. }
  assert (E : map (fun o => phid (base_of o)) (_wiki_parser results date_modified) =
              map fst (_wiki_parser_loop (data results) date_modified [])).
  { unfold _wiki_parser, dict_values. rewrite map_map. clear Hnd Hk.
    induction Hv as [|kv d H _ IHd]; cbn; [reflexivity|].
    rewrite H. f_equal. apply IHd. }
  rewrite E. split; [exact Hnd|]. intros k. rewrite Hk. unfold page_has.
  split; [intros [H|H]; [inversion H|exact H]|auto].
Qed.

Lemma count_phid_app k l1 l2 :
  count_phid k (l1 ++ l2) = count_phid k l1 + count_phid k l2.
Proof. unfold count_phid. rewrite filter_app, length_app. reflexivity. Qed.

Lemma count_phid_NoDup k : forall objs,
  NoDup (map (fun o => phid (base_of o)) objs) ->
  count_phid k objs =
    if decide (k ∈ map (fun o => phid (base_of o)) objs) then 1 else 0.
Proof.
  induction objs as [|o objs IH]; intros Hnd.
  - cbn. rewrite decide_False by apply not_elem_of_nil. reflexivity.
  - cbn [map] in *. apply NoDup_cons in Hnd as [Hnin Hnd]. unfold count_phid in *.
    rewrite filter_cons. destruct (decide (phid (base_of o) = k)) as [E|E].
    + subst k. rewrite decide_True by apply list_elem_of_here.
      cbn. rewrite IH by exact Hnd. rewrite decide_False by exact Hnin. reflexivity.
    + rewrite IH by exact Hnd. destruct (decide (k ∈ _)) as [Hin|Hnin'].
      * rewrite decide_True by (apply list_elem_of_further; exact Hin). reflexivity.
      * rewrite decide_False; [reflexivity|].
        intros Hin. apply elem_of_cons in Hin as [->|Hin]; contradiction.
Qed.

Lemma count_phid_pages k date_modified : forall pages : list (RawPage WikiRow),
  count_phid k (concat (map (fun p => _wiki_parser p date_modified) pages)) =
  length (filter (page_has k date_modified) pages).
Proof.
  induction pages as [|p pages IH]; [reflexivity|].
  cbn [map concat]. rewrite count_phid_app, IH, filter_cons.
  destruct (wiki_parser_phids p date_modified) as [Hnd Hk].
  rewrite (count_phid_NoDup k _ Hnd).
  destruct (decide (page_has k date_modified p)) as [H|H].
  - rewrite decide_True by (apply Hk; exact H). reflexivity.
  - rewrite decide_False by (rewrite Hk; exact H). reflexivity.
Qed.

Lemma Forall2_parsed {R O} (f : RawPage R -> list O) (ps : list (RawPage R)) :
  Forall2 (fun p objs => (fun results => Ok (f results)) p = Ok objs) ps (map f ps).
Proof. induction ps; constructor; auto. Qed.

(** How far the parser's one-record-per-[phid] rule reaches. The dictionary
    keyed by [phid] is rebuilt on every call of the parser, that is, for every
    page: within the output for one page no two records share a [phid], but
    the traversal only appends the per-page outputs, so a [phid] comes out
    once for every fetched page that holds a row of it modified at or after
    the watermark. *)
Lemma wiki_records_per_phid (self : PhabricatorClient (Scripted WikiRow))
    (init : list (RawPage WikiRow)) (last : RawPage WikiRow)
    (rest : list (result (option (RawPage WikiRow))))
    (fuel : nat) (date_modified : Z) (w : World (Scripted WikiRow)) :
  let pages := init ++ [last] in
  _query_phriction self = scripted_endpoint ->
  script (server w) = map reply_page pages ++ rest ->
  Forall (fun p => is_Some (next_token (first_direction pages) (cursor p))) init ->
  next_token (first_direction pages) (cursor last) = None ->
  length pages <= fuel ->
  exists out w',
    get_all_wikis self fuel date_modified w = (Some (Ok out), w') /\
    out = concat (map (fun p => _wiki_parser p date_modified) pages) /\
    Forall (fun p => NoDup (map (fun o => phid (base_of o))
                                (_wiki_parser p date_modified))) pages /\
    forall k, count_phid k out = length (filter (page_has k date_modified) pages).
Proof.
  intros pages Hself Hs Hc Hn Hfuel. unfold get_all_wikis. rewrite Hself.
  destruct (scripted_until_last
              (fun results => Ok (_wiki_parser results date_modified))
              init (map (fun p => _wiki_parser p date_modified) init) last
              (_wiki_parser last date_modified) fuel
              (mkLocals wikis_query None true []) w rest) as (H1 & _);
    try assumption.
  - apply Forall2_parsed.
  - reflexivity.
  - subst pages. rewrite length_app in Hfuel. cbn in Hfuel. lia.
  - eexists _, _. cbn zeta. unfold _get_objects. rewrite H1. split; [reflexivity|].
    cbn [parsed_objects].
    assert (E : [] ++ concat (map (fun p => _wiki_parser p date_modified) init) ++
                _wiki_parser last date_modified =
                concat (map (fun p => _wiki_parser p date_modified) pages)).
    { subst pages. rewrite map_app, concat_app. cbn. rewrite app_nil_r. reflexivity. }
    rewrite E. split; [reflexivity|]. split.
    + apply Forall_forall. intros p _. apply wiki_parser_phids.
    + intros k. apply count_phid_pages.
Qed.

(** ** SyncOrchestrator *)

Lemma bind_Ok {Srv A B} (m : M Srv A) (k : A -> M Srv B) w b w' :
  bind m k w = (Some (Ok b), w') ->
  exists a w1, m w = (Some (Ok a), w1) /\ k a w1 = (Some (Ok b), w').
Proof.
  unfold bind. destruct (m w) as [[[a|e]|] w1]; intros H; try discriminate.
  exists a, w1. auto.
Qed.

Lemma loop_Forall {Srv R O} (endpoint : Endpoint Srv R)
    (parser : RawPage R -> result (list O)) (P : O -> Prop) :
  (forall page objs, parser page = Ok objs -> Forall P objs) ->
  forall fuel (l : Locals (O := O)) w out,
    Forall P (parsed_objects l) ->
    outcome (_get_objects_loop endpoint parser fuel l w) = Some (Ok out) ->
    Forall P out.
Proof.
  intros Hparser. induction fuel as [|fuel IH]; intros l w out Hacc;
    cbn [_get_objects_loop]; [discriminate|].
  destruct (endpoint (query l) (server w)) as [[[p|]|e] s']; cbn;
    try discriminate; [|intros [= <-]; exact Hacc].
  destruct (parser p) as [objs|e] eqn:Ep; cbn; try discriminate.
  assert (Hacc' : Forall P (parsed_objects l ++ objs))
    by (apply Forall_app; split; [exact Hacc|exact (Hparser p objs Ep)]).
  destruct (if is_first_page l then _ else _) as [d|]; cbn;
    [|intros [= <-]; exact Hacc'].
  destruct (cursor_item (cursor p) d) as [t|]; cbn; [|intros [= <-]; exact Hacc'].
  apply IH. exact Hacc'.
Qed.

Lemma comment_loop_kind date_modified : forall ts acc out,
  Forall (fun o => is_comment o = true) acc ->
  _comment_parser_loop ts date_modified acc = Ok out ->
  Forall (fun o => is_comment o = true) out.
Proof.
  induction ts as [|t ts IH]; intros acc out Hacc; cbn [_comment_parser_loop];
    unfold _comment_parser_body.
  - intros [= <-]. exact Hacc.
  - destruct (String.eqb (tx_type t) "comment"); [|apply IH; exact Hacc].
    destruct (tx_comments t) as [|c cs]; [discriminate|].
    destruct (_ <=? _)%Z; apply IH; [|exact Hacc].
    apply Forall_app. split; [exact Hacc|]. repeat constructor.
Qed.

Section Orchestrator.
Context {Srv : Type}.
Variable self : PhabricatorDataSource Srv.
Variable fuel : nat.

Lemma get_all_tasks_kind w tasks w' :
  get_all_tasks (_phab self) fuel (_last_index_time_timestamp self) w
    = (Some (Ok tasks), w') ->
  Forall (fun o => is_task o = true) tasks.
Proof.
  unfold get_all_tasks, _get_objects. intros [= H _]. revert H.
  apply loop_Forall; [|constructor].
  intros page objs [= <-]. unfold _task_parser.
  apply Forall_forall. intros o Ho. apply list_elem_of_fmap in Ho as (row & -> & _).
  reflexivity.
Qed.

Lemma get_all_wikis_kind w wikis w' :
  get_all_wikis (_phab self) fuel (_last_index_time_timestamp self) w
    = (Some (Ok wikis), w') ->
  Forall (fun o => is_wiki o = true) wikis.
Proof.
  unfold get_all_wikis, _get_objects. intros [= H _]. revert H.
  apply loop_Forall; [|constructor].
  intros page objs [= <-]. unfold _wiki_parser, dict_values.
  assert (Hd : forall rows d,
    Forall (fun kv : string * PhabObject => is_wiki kv.2 = true) d ->
    Forall (fun kv : string * PhabObject => is_wiki kv.2 = true)
           (_wiki_parser_loop rows (_last_index_time_timestamp self) d)).
  { induction rows as [|row rows IH]; intros d Hd; cbn [_wiki_parser_loop];
      [exact Hd|].
    destruct (_ <=? _)%Z; apply IH; [|exact Hd].
    apply (dict_setitem_values (fun _ v => is_wiki v = true)); auto. }
  specialize (Hd (data page) [] (List.Forall_nil _)).
  induction Hd; cbn; constructor; auto.
Qed.

Lemma get_object_comments_kind parent w group w' :
  get_object_comments (_phab self) fuel parent (_last_index_time_timestamp self) w
    = (Some (Ok group), w') ->
  Forall (fun o => is_comment o = true) group.
Proof.
  unfold get_object_comments, _get_objects. intros [= H _]. revert H.
  apply loop_Forall; [|constructor].
  intros page objs. apply comment_loop_kind. constructor.
Qed.

Lemma fetch_all_comments_groups : forall documents comments w out w',
  _fetch_all_comments_loop self fuel documents comments w = (Some (Ok out), w') ->
  exists groups,
    comment_groups self fuel documents w groups w' /\
    out = comments ++ concat groups.
Proof.
  induction documents as [|document rest IH]; intros comments w out w';
    cbn [_fetch_all_comments_loop].
  - intros [= <- <-]. exists []. split; [constructor|].
    cbn. rewrite app_nil_r. reflexivity.
  - intros H. apply bind_Ok in H as (group & w1 & Hg & H).
    apply IH in H as (groups & Hgs & ->).
    exists (group :: groups). split; [econstructor; eassumption|].
    cbn. rewrite app_assoc. reflexivity.
Qed.

Lemma groups_fetch_all_comments : forall documents w groups w',
  comment_groups self fuel documents w groups w' ->
  forall comments,
    _fetch_all_comments_loop self fuel documents comments w =
      (Some (Ok (comments ++ concat groups)), w').
Proof.
  induction 1 as [|parent parents w group w1 groups w2 Hg _ IH]; intros comments;
    cbn [_fetch_all_comments_loop].
  - cbn. rewrite app_nil_r. reflexivity.
  - unfold bind. rewrite Hg, IH. cbn. rewrite app_assoc. reflexivity.
Qed.

Lemma comment_groups_kind : forall parents w groups w',
  comment_groups self fuel parents w groups w' ->
  length groups = length parents /\
  Forall (Forall (fun o => is_comment o = true)) groups.
Proof.
  induction 1 as [|parent parents w group w1 groups w2 Hg _ [IH1 IH2]].
  - split; [reflexivity|constructor].
  - split; [cbn; congruence|]. constructor; [|exact IH2].
    eapply get_object_comments_kind. exact Hg.
Qed.
End Orchestrator.

(** C3. The list a synchronization pass hands to [_index_all_documents] is
    the tasks in the order their traversal returned them, then the wiki pages
    in the order their traversal returned them, then the comments: one group
    per parent, the groups in the order of the parents in the task-then-wiki
    list, each group being what that parent's comment traversal returned.
    The pass completes exactly when these traversals return. *)
Theorem merged_order {Srv} (self : PhabricatorDataSource Srv) (fuel : nat)
    (w : World Srv) :
  (forall w', _feed_new_documents self fuel w = (Some (Ok tt), w') ->
     exists wikis tasks groups w1 w2 w3,
       get_all_wikis (_phab self) fuel (_last_index_time_timestamp self) w
         = (Some (Ok wikis), w1) /\
       get_all_tasks (_phab self) fuel (_last_index_time_timestamp self) w1
         = (Some (Ok tasks), w2) /\
       comment_groups self fuel (tasks ++ wikis) w2 groups w3 /\
       w' = _index_all_documents self (tasks ++ wikis ++ concat groups) w3 /\
       Forall (fun o => is_task o = true) tasks /\
       Forall (fun o => is_wiki o = true) wikis /\
       length groups = length (tasks ++ wikis) /\
       Forall (Forall (fun o => is_comment o = true)) groups) /\
  (forall wikis tasks groups w1 w2 w3,
     get_all_wikis (_phab self) fuel (_last_index_time_timestamp self) w
       = (Some (Ok wikis), w1) ->
     get_all_tasks (_phab self) fuel (_last_index_time_timestamp self) w1
       = (Some (Ok tasks), w2) ->
     comment_groups self fuel (tasks ++ wikis) w2 groups w3 ->
     _feed_new_documents self fuel w =
       (Some (Ok tt),
        _index_all_documents self (tasks ++ wikis ++ concat groups) w3)).
Proof.
  split.
  - intros w' H. unfold _feed_new_documents in H.
    apply bind_Ok in H as (objs & w2 & Hobjs & H).
    apply bind_Ok in H as (comments & w3 & Hcs & H).
    injection H as <-.
    unfold _fetch_all_objects in Hobjs.
    apply bind_Ok in Hobjs as (wikis & w1 & Hwikis & Hobjs).
    apply bind_Ok in Hobjs as (tasks & w2' & Htasks & Hobjs).
    injection Hobjs as <- <-.
    apply fetch_all_comments_groups in Hcs as (groups & Hgroups & ->).
    destruct (comment_groups_kind _ _ _ _ _ _ Hgroups) as [Hlen Hkind].
    exists wikis, tasks, groups, w1, w2', w3. repeat split; try assumption.
    + rewrite <- app_assoc. reflexivity.
    + eapply get_all_tasks_kind. exact Htasks.
    + eapply get_all_wikis_kind. exact Hwikis.
  - intros wikis tasks groups w1 w2 w3 Hwikis Htasks Hgroups.
    unfold _feed_new_documents, _fetch_all_objects, _fetch_all_comments, bind.
    rewrite Hwikis, Htasks. cbn [ret].
    rewrite (groups_fetch_all_comments _ _ _ _ _ _ Hgroups []).
    cbn [app]. rewrite <- app_assoc. reflexivity.
Qed.

(** ** BatchDispatcher *)

Lemma concat_length_uniform {A} (n : nat) (batches : list (list A)) :
  Forall (fun b => length b = n) batches ->
  length (concat batches) = n * length batches.
Proof.
  induction 1 as [|b batches Hb _ IH]; cbn [concat length]; [lia|].
  rewrite length_app, IH, Hb. lia.
Qed.

Section Dispatcher.
Context {Srv : Type}.
Variable self : PhabricatorDataSource Srv.

(** What the loop has done when the input is used up: it has fed full
    batches and holds a partial one. *)
Lemma index_loop_batches : forall documents parsed_documents total_fed (w : World Srv),
  length parsed_documents < FEED_BATCH_SIZE ->
  exists full partial,
    _index_all_documents_loop self documents parsed_documents total_fed w =
      (partial, total_fed + FEED_BATCH_SIZE * length full,
       mkWorld (server w) (log w) (index_queue w ++ full)) /\
    concat full ++ partial =
      parsed_documents ++ map (to_basic_document self) documents /\
    Forall (fun b => length b = FEED_BATCH_SIZE) full /\
    length partial < FEED_BATCH_SIZE.
Proof.
  induction documents as [|document rest IH]; intros parsed total w Hlt;
    cbn [_index_all_documents_loop].
  - exists [], parsed. cbn [length concat map app].
    rewrite !app_nil_r, Nat.mul_0_r, Nat.add_0_r. destruct w; auto.
  - destruct (Nat.leb_spec FEED_BATCH_SIZE
                (length (parsed ++ [to_basic_document self document]))) as [Hge|Hlt'].
    + assert (Hlen : length (parsed ++ [to_basic_document self document])
                     = FEED_BATCH_SIZE)
        by (rewrite length_app in *; cbn [length] in *; lia).
      destruct (IH [] (total + length (parsed ++ [to_basic_document self document]))
                   (feed (parsed ++ [to_basic_document self document]) w))
        as (full & partial & E & Hc & Hf & Hp).
      { unfold FEED_BATCH_SIZE. cbn [length]. lia. }
      exists ((parsed ++ [to_basic_document self document]) :: full), partial.
      rewrite E, Hlen. cbn [feed server log index_queue length concat map].
      rewrite <- !app_assoc. cbn [app]. rewrite Hc.
      repeat split; auto. f_equal. f_equal. lia.
    + destruct (IH (parsed ++ [to_basic_document self document]) total w Hlt')
        as (full & partial & E & Hc & Hf & Hp).
      exists full, partial. rewrite E, Hc. cbn [map].
      rewrite <- app_assoc. auto.
Qed.

Lemma index_all_documents_batches (documents : list PhabObject) (w : World Srv) :
  exists full partial,
    _index_all_documents self documents w =
      mkWorld (server w)
              (log w ++ if (0 <? length documents)%nat
                        then [WorkerFed (length documents)] else [])
              (index_queue w ++ full ++ [partial]) /\
    concat full ++ partial = map (to_basic_document self) documents /\
    Forall (fun b => length b = FEED_BATCH_SIZE) full /\
    length partial < FEED_BATCH_SIZE /\
    length documents = FEED_BATCH_SIZE * length full + length partial.
Proof.
  destruct (index_loop_batches documents [] 0 w) as (full & partial & E & Hc & Hf & Hp).
  { unfold FEED_BATCH_SIZE. cbn [length]. lia. }
  cbn [app] in Hc.
  assert (Hlen : length documents = FEED_BATCH_SIZE * length full + length partial).
  { rewrite <- (length_map (to_basic_document self) documents), <- Hc, length_app.
    rewrite (concat_length_uniform _ _ Hf). reflexivity. }
  exists full, partial. unfold _index_all_documents. rewrite E.
  cbn [Nat.add]. rewrite <- Hlen. repeat split; auto.
  destruct (0 <? length documents)%nat; unfold logging_info, feed;
    cbn [server log index_queue]; rewrite ?app_nil_r, <- ?app_assoc;
    reflexivity.
Qed.
End Dispatcher.

(** C4. The batches the dispatcher feeds to the sink are, in order, full
    batches of exactly 512 records, each fed when the accumulator reached 512,
    followed by one last batch with the fewer than 512 records that remain;
    together they hold the export records of the input in input order. An
    input of 1025 records is fed as three batches of 512, 512 and 1
    records. *)
Theorem batches_of_512_then_remainder {Srv} (self : PhabricatorDataSource Srv)
    (documents : list PhabObject) (w : World Srv) :
  exists full partial,
    index_queue (_index_all_documents self documents w) =
      index_queue w ++ full ++ [partial] /\
    concat full ++ partial = map (to_basic_document self) documents /\
    Forall (fun b => length b = 512) full /\
    length partial < 512 /\
    length full = length documents / 512 /\
    length partial = length documents mod 512 /\
    (length documents = 1025 ->
     map length (full ++ [partial]) = [512; 512; 1]).
Proof.
  destruct (index_all_documents_batches self documents w)
    as (full & partial & E & Hc & Hf & Hp & Hlen).
  exists full, partial. rewrite E. cbn [index_queue].
  change FEED_BATCH_SIZE with 512 in *.
  assert (Hdiv : length full = length documents / 512).
  { apply (Nat.div_unique _ _ _ (length partial)); [exact Hp|exact Hlen]. }
  assert (Hmod : length partial = length documents mod 512).
  { apply (Nat.mod_unique _ _ (length full)); [exact Hp|exact Hlen]. }
  repeat split; auto.
  intros H1025. rewrite H1025 in Hlen.
  assert (H2 : length full = 2) by lia.
  assert (H1 : length partial = 1) by lia.
  destruct full as [|a [|b [|c full]]]; try discriminate.
  inversion Hf as [|? ? Ha Hf']; subst. inversion Hf' as [|? ? Hb _]; subst.
  cbn [app map]. rewrite Ha, Hb, H1. reflexivity.
Qed.

(** C10. When the number of input records is a multiple of 512, zero
    included, the dispatcher's last call to the sink, made after the input is
    used up, feeds an empty batch, the calls before it having fed the full
    batches; and the total-count record is logged exactly when the input is
    not empty, with the number of input records as the count. *)
Theorem final_feed_may_be_empty {Srv} (self : PhabricatorDataSource Srv)
    (documents : list PhabObject) (w : World Srv) :
  let w' := _index_all_documents self documents w in
  (length documents mod FEED_BATCH_SIZE = 0 ->
   exists full,
     index_queue w' = index_queue w ++ full ++ [[]] /\
     concat full = map (to_basic_document self) documents /\
     Forall (fun b => length b = FEED_BATCH_SIZE) full /\
     length full = length documents / FEED_BATCH_SIZE) /\
  log w' = log w ++ (if (0 <? length documents)%nat
                     then [WorkerFed (length documents)] else []).
Proof.
  intros w'. subst w'.
  destruct (index_all_documents_batches self documents w)
    as (full & partial & E & Hc & Hf & Hp & Hlen).
  rewrite E. cbn [index_queue log]. split; [|reflexivity].
  intros Hmod. exists full.
  assert (H0 : length partial = 0).
  { rewrite <- (Nat.mod_unique _ _ (length full) (length partial) Hp Hlen) in Hmod.
    exact Hmod. }
  destruct partial; [|discriminate]. rewrite app_nil_r in Hc.
  repeat split; auto.
  apply (Nat.div_unique _ _ _ 0); [unfold FEED_BATCH_SIZE; lia|].
  cbn [length] in Hlen. exact Hlen.
Qed.

(** * Concrete runs *)

Example back_traversal_queries :
  let r := _get_objects scripted_endpoint
             (fun results => Ok (_wiki_parser results 0)) 10 wikis_query
             (world0 (mkScripted [reply_page back1; reply_page back2;
                                  reply_page back3] [])) in
  map (fun q : Query => (q !! "before", q !! "after"))
      (received (server (final_world r))) =
    [(None, None); (Some (QStr "b1"), None); (Some (QStr "b2"), None)].
Proof. vm_compute. reflexivity. Qed.

Lemma fetches_exactly_the_pages_witness :
  let parser := fun results : RawPage WikiRow => Ok (_wiki_parser results 0) in
  let r3 := _get_objects scripted_endpoint parser 3 wikis_query
              (world0 (mkScripted [reply_page back1; reply_page back2;
                                   reply_page back3; reply_page lone_page] [])) in
  let r1 := _get_objects scripted_endpoint parser 1 wikis_query
              (world0 (mkScripted [reply_page lone_page; reply_page back1] [])) in
  (length (received (server (final_world r3))) = 3 /\
   script (server (final_world r3)) = [reply_page lone_page] /\
   outcome r3 = Some (Ok (concat [_wiki_parser back1 0; _wiki_parser back2 0]
                          ++ _wiki_parser back3 0))) /\
  (length (received (server (final_world r1))) = 1 /\
   script (server (final_world r1)) = [reply_page back1] /\
   is_Some (outcome r1)).
Proof.
  intros parser r3 r1. split.
  - apply (proj1 (fetches_exactly_the_pages parser) [back1; back2] back3
             [_wiki_parser back1 0; _wiki_parser back2 0] (_wiki_parser back3 0)
             [reply_page lone_page] 3 wikis_query
             (world0 (mkScripted [reply_page back1; reply_page back2;
                                  reply_page back3; reply_page lone_page] []))).
    + reflexivity.
    + reflexivity.
    + repeat constructor; eexists; reflexivity.
    + reflexivity.
    + repeat constructor.
    + reflexivity.
    + cbn. lia.
  - apply (proj2 (fetches_exactly_the_pages parser) lone_page [reply_page back1]
             0 wikis_query
             (world0 (mkScripted [reply_page lone_page; reply_page back1] []))
             eq_refl eq_refl eq_refl eq_refl).
Defined.

Lemma empty_response_returns_accumulated_witness :
  let parser := fun results : RawPage WikiRow => Ok (_wiki_parser results 0) in
  let r := _get_objects scripted_endpoint parser 3 wikis_query
             (world0 (mkScripted [reply_page back1; reply_page back2; Ok None;
                                  reply_page back3] [])) in
  let r0 := _get_objects scripted_endpoint parser 1 wikis_query
              (world0 (mkScripted [] [])) in
  (outcome r = Some (Ok (concat [_wiki_parser back1 0; _wiki_parser back2 0])) /\
   script (server (final_world r)) = [reply_page back3]) /\
  outcome r0 = Some (Ok []).
Proof.
  intros parser r r0. split.
  - apply (proj1 (empty_response_returns_accumulated parser) [back1; back2]
             [_wiki_parser back1 0; _wiki_parser back2 0] [reply_page back3]
             3 wikis_query
             (world0 (mkScripted [reply_page back1; reply_page back2; Ok None;
                                  reply_page back3] []))).
    + reflexivity.
    + repeat constructor; eexists; reflexivity.
    + repeat constructor.
    + cbn. lia.
  - apply (proj2 (empty_response_returns_accumulated parser) (Scripted WikiRow)
             scripted_endpoint 0 (mkLocals wikis_query None true [])
             (world0 (mkScripted [] [])) (mkScripted [] [wikis_query]) eq_refl).
Defined.



(** C1. The code does not keep one record per [phid] over a traversal: with
    two revisions of one wiki document on the first page and a third on the
    second page, [get_all_wikis] returns two records with that [phid], the
    revisions 20 and 19. The parser's dictionary merges the two rows of the
    first page, and the row of the second page is added beside them. *)
Lemma wiki_phid_kept_once_per_page :
  let w := world0 (mkScripted [reply_page rev_page1; reply_page rev_page2] []) in
  exists out,
    (get_all_wikis wiki_only_client 10 0 w).1 = Some (Ok out) /\
    (exists row, row ∈ data rev_page1 /\ wiki_phid row = "PHID-WIKI-1") /\
    (exists row, row ∈ data rev_page2 /\ wiki_phid row = "PHID-WIKI-1") /\
    map (fun o => id (base_of o)) out = ["20"; "19"] /\
    count_phid "PHID-WIKI-1" out = 2 /\
    count_phid "PHID-WIKI-1" out <> 1.
Proof.
  intros w. eexists. split; [vm_compute; reflexivity|].
  split; [eexists; split; [apply list_elem_of_here|reflexivity]|].
  split; [eexists; split; [apply list_elem_of_here|reflexivity]|].
  split; [reflexivity|]. split; [vm_compute; reflexivity|].
  vm_compute. discriminate.
Qed.

Lemma wiki_records_per_phid_witness :
  let w := world0 (mkScripted [reply_page rev_page1; reply_page rev_page2] []) in
  exists out w',
    get_all_wikis wiki_only_client 10 0 w = (Some (Ok out), w') /\
    out = concat (map (fun p => _wiki_parser p 0) [rev_page1; rev_page2]) /\
    Forall (fun p => NoDup (map (fun o => phid (base_of o)) (_wiki_parser p 0)))
           [rev_page1; rev_page2] /\
    forall k, count_phid k out =
              length (filter (page_has k 0) [rev_page1; rev_page2]).
Proof.
  intros w.
  apply (wiki_records_per_phid wiki_only_client [rev_page1] rev_page2 [] 10 0 w).
  - reflexivity.
  - reflexivity.
  - repeat constructor; eexists; reflexivity.
  - reflexivity.
  - cbn. lia.
Defined.

Lemma comment_parser_keeps_recent_comments_witness :
  comment_entries_have_payload sample_transactions /\
  _comment_parser_body (mkTransaction "status" []) 100 [] = Ok [] /\
  _comment_parser_body
    (mkTransaction "comment" [sample_payload "2" "PHID-XCMT-2" 99]) 100 [] = Ok [] /\
  _comment_parser_body
    (mkTransaction "comment" [sample_payload "1" "PHID-XCMT-1" 100]) 100 []
    = Ok [mk_comment (sample_payload "1" "PHID-XCMT-1" 100)] /\
  _comment_parser sample_transactions 100 =
    Ok [mk_comment (sample_payload "1" "PHID-XCMT-1" 100);
        mk_comment (sample_payload "3" "PHID-XCMT-3" 150)] /\
  mk_comment (sample_payload "1" "PHID-XCMT-1" 100)
    ∈ comment_parser_spec sample_transactions 100.
Proof.
  assert (H : comment_entries_have_payload sample_transactions)
    by (repeat constructor; discriminate).
  destruct (comment_parser_keeps_recent_comments 100) as [Hbody Hpage].
  destruct (Hpage sample_transactions H) as (H1 & _ & H3).
  split; [exact H|]. split; [|split; [|split; [|split]]].
  - apply (proj1 (Hbody (mkTransaction "status" []) [])). discriminate.
  - apply (proj2 (Hbody (mkTransaction "comment"
                           [sample_payload "2" "PHID-XCMT-2" 99]) [])
             (sample_payload "2" "PHID-XCMT-2" 99) eq_refl eq_refl).
    reflexivity.
  - apply (proj2 (Hbody (mkTransaction "comment"
                           [sample_payload "1" "PHID-XCMT-1" 100]) [])
             (sample_payload "1" "PHID-XCMT-1" 100) eq_refl eq_refl).
    discriminate.
  - exact H1.
  - apply (H3 (mkTransaction "comment" [sample_payload "1" "PHID-XCMT-1" 100])).
    + apply list_elem_of_here.
    + reflexivity.
    + reflexivity.
    + reflexivity.
Defined.

Lemma comment_parser_reads_first_payload_witness :
  _comment_parser sample_transactions 100 =
    _comment_parser sample_transactions_first_only 100 /\
  _comment_parser sample_transactions_no_payload 100 = Raise IndexError /\
  comment_entries_have_payload sample_transactions.
Proof.
  destruct (comment_parser_reads_first_payload 100) as (H1 & H2 & H3).
  split; [|split].
  - apply (H1 sample_transactions sample_transactions_first_only).
    repeat constructor.
  - apply (H2 sample_transactions_no_payload).
    apply Exists_cons_tl, Exists_cons_hd. split; reflexivity.
  - apply (proj1 (H3 sample_transactions)). eexists. vm_compute. reflexivity.
Defined.

Lemma merged_order_witness :
  exists wikis tasks groups w1 w2 w3,
    get_all_wikis sample_client 5 0 (world0 sample_server) = (Some (Ok wikis), w1) /\
    get_all_tasks sample_client 5 0 w1 = (Some (Ok tasks), w2) /\
    comment_groups sample_source 5 (tasks ++ wikis) w2 groups w3 /\
    (_feed_new_documents sample_source 5 (world0 sample_server)).2 =
      _index_all_documents sample_source (tasks ++ wikis ++ concat groups) w3 /\
    Forall (fun o => is_task o = true) tasks /\
    Forall (fun o => is_wiki o = true) wikis /\
    length groups = length (tasks ++ wikis) /\
    Forall (Forall (fun o => is_comment o = true)) groups.
Proof.
  apply (proj1 (merged_order sample_source 5 (world0 sample_server))).
  vm_compute. reflexivity.
Defined.

Lemma batches_of_512_then_remainder_witness :
  length (sample_documents 1025) = 1025 /\
  exists full partial,
    index_queue (_index_all_documents sample_source (sample_documents 1025)
                   (world0 sample_server)) = [] ++ full ++ [partial] /\
    map length (full ++ [partial]) = [512; 512; 1].
Proof.
  assert (H : length (sample_documents 1025) = 1025) by (vm_compute; reflexivity).
  split; [exact H|].
  destruct (batches_of_512_then_remainder sample_source (sample_documents 1025)
              (world0 sample_server))
    as (full & partial & H1 & _ & _ & _ & _ & _ & H7).
  exists full, partial. split; [exact H1|exact (H7 H)].
Defined.

Lemma final_feed_may_be_empty_witness :
  length (sample_documents 512) mod FEED_BATCH_SIZE = 0 /\
  exists full,
    index_queue (_index_all_documents sample_source (sample_documents 512)
                   (world0 sample_server)) = [] ++ full ++ [[]] /\
    length full = length (sample_documents 512) / FEED_BATCH_SIZE.
Proof.
  assert (H : length (sample_documents 512) mod FEED_BATCH_SIZE = 0)
    by (vm_compute; reflexivity).
  split; [exact H|].
  destruct (proj1 (final_feed_may_be_empty sample_source (sample_documents 512)
                     (world0 sample_server)) H)
    as (full & H1 & _ & _ & H4).
  exists full. split; [exact H1|exact H4].
Defined.

(** The sizes of the batches fed for 1025, 1024 and 0 records, and the log. *)
Example feed_1025 :
  let w := _index_all_documents sample_source (sample_documents 1025)
             (world0 sample_server) in
  map length (index_queue w) = [512; 512; 1] /\ log w = [WorkerFed 1025].
Proof. vm_compute. split; reflexivity. Qed.

Example feed_1024 :
  let w := _index_all_documents sample_source (sample_documents 1024)
             (world0 sample_server) in
  map length (index_queue w) = [512; 512; 0] /\ log w = [WorkerFed 1024].
Proof. vm_compute. split; reflexivity. Qed.

Example feed_nothing :
  let w := _index_all_documents sample_source [] (world0 sample_server) in
  index_queue w = [[]] /\ log w = [].
Proof. vm_compute. split; reflexivity. Qed.

(** One task and one wiki page with one recent comment each: the pass feeds a
    single batch of four records, task, wiki page, comment on the task,
    comment on the wiki page. *)
Example one_pass :
  let r := _feed_new_documents sample_source 5 (world0 sample_server) in
  r.1 = Some (Ok tt) /\
  map (map doc_id) (index_queue r.2) = [["7"; "11"; "1"; "2"]] /\
  map (map doc_title) (index_queue r.2) = [["Fix login"; "Home"; "Comment"; "Comment"]] /\
  log r.2 = [WorkerFed 4].
Proof. vm_compute. repeat split; reflexivity. Qed.

(** * Further properties of the traversal *)

Section FetcherMore.
Context {R O : Type}.
Variable parser : RawPage R -> result (list O).

Local Abbreviation loop :=
  (_get_objects_loop (Srv := Scripted R) scripted_endpoint parser).

(** Following a run of pages that all carry the selected cursor field uses
    one unit of fuel per page and leaves the loop where the run ends. *)
Lemma scripted_follow : forall ps objss k (l : Locals (O := O)) w rest,
  script (server w) = map reply_page ps ++ rest ->
  Forall2 (fun p objs => parser p = Ok objs) ps objss ->
  Forall (fun p => is_Some (next_token (direction_at l ps) (cursor p))) ps ->
  exists l' w',
    loop (length ps + k) l w = loop k l' w' /\
    parsed_objects l' = parsed_objects l ++ concat objss /\
    script (server w') = rest /\
    length (received (server w')) = length (received (server w)) + length ps /\
    log w' = log w /\
    index_queue w' = index_queue w.
Proof.
  induction ps as [|p ps IH]; intros objss k l w rest Hs Hp Hc;
    inversion Hp as [|? objs ? objss' Hp1 Hp2]; subst.
  - exists l, w. cbn. rewrite app_nil_r. repeat split; auto.
  - cbn [map app] in Hs. cbn [length Nat.add].
    rewrite (loop_page parser _ _ _ _ _ _ Hs Hp1).
    inversion Hc as [|? ? Hc1 Hc2]; subst.
    assert (Hd : direction_at l [p] = direction_at l (p :: ps))
      by (unfold direction_at; reflexivity).
    rewrite Hd. destruct (direction_at l (p :: ps)) as [d|] eqn:Ed;
      [|destruct Hc1 as [? Hc1]; discriminate].
    cbn in Hc1. destruct Hc1 as [t Ht]. rewrite Ht. cbn zeta.
    match goal with |- context [_get_objects_loop _ _ _ ?l1 ?w1] =>
      destruct (IH objss' k l1 w1 rest) as (l' & w' & I1 & I2 & I3 & I4 & I5 & I6)
    end; [reflexivity | exact Hp2 | exact Hc2 |].
    exists l', w'. rewrite I1, I2, I3, I4, I5, I6. cbn.
    rewrite length_app, <- app_assoc. cbn. repeat split. lia.
Qed.

Lemma loop_raise {Srv} (endpoint : Endpoint Srv R) fuel (l : Locals (O := O)) w e s' :
  endpoint (query l) (server w) = (Raise e, s') ->
  _get_objects_loop endpoint parser (S fuel) l w =
    mkRun (Some (Raise e)) (query l) (set_server w s').
Proof. intros H. cbn [_get_objects_loop]. rewrite H. reflexivity. Qed.

Lemma loop_parser_raise fuel (l : Locals (O := O)) w p scr e :
  script (server w) = reply_page p :: scr ->
  parser p = Raise e ->
  loop (S fuel) l w =
    mkRun (Some (Raise e)) (query l)
          (set_server w (mkScripted scr (received (server w) ++ [query l]))).
Proof.
  intros Hs Hp. cbn [_get_objects_loop]. unfold scripted_endpoint.
  rewrite Hs. unfold reply_page. rewrite Hp. reflexivity.
Qed.
End FetcherMore.

Section ReceivedGrows.
Context {R O : Type}.
Variable parser : RawPage R -> result (list O).

Local Abbreviation loop :=
  (_get_objects_loop (Srv := Scripted R) scripted_endpoint parser).

(** The scripted server only ever adds to its record of queries. *)
Lemma loop_received_mono : forall fuel (l : Locals (O := O)) w,
  length (received (server w)) <=
  length (received (server (final_world (loop fuel l w)))).
Proof.
  induction fuel as [|fuel IH]; intros l w; cbn [_get_objects_loop];
    [cbn; lia|].
  unfold scripted_endpoint.
  destruct (script (server w)) as [|[[p|]|e] scr]; cbn;
    try (rewrite length_app; cbn; lia).
  destruct (parser p) as [objs|e]; cbn; try (rewrite length_app; cbn; lia).
  destruct (if is_first_page l then _ else _) as [d|]; cbn;
    try (rewrite length_app; cbn; lia).
  destruct (cursor_item (cursor p) d) as [t|]; cbn;
    try (rewrite length_app; cbn; lia).
  match goal with |- _ <= length (received (server (final_world
                        (_get_objects_loop _ _ fuel ?l1 ?w1)))) =>
    specialize (IH l1 w1) end.
  eapply Nat.le_trans; [|exact IH]. cbn. rewrite length_app. cbn. lia.
Qed.

(** Every iteration that is run sends one query. *)
Lemma loop_received_step fuel (l : Locals (O := O)) w :
  S (length (received (server w))) <=
  length (received (server (final_world (loop (S fuel) l w)))).
Proof.
  cbn [_get_objects_loop]. unfold scripted_endpoint.
  destruct (script (server w)) as [|[[p|]|e] scr]; cbn;
    try (rewrite length_app; cbn; lia).
  destruct (parser p) as [objs|e]; cbn; try (rewrite length_app; cbn; lia).
  destruct (if is_first_page l then _ else _) as [d|]; cbn;
    try (rewrite length_app; cbn; lia).
  destruct (cursor_item (cursor p) d) as [t|]; cbn;
    try (rewrite length_app; cbn; lia).
  match goal with |- _ <= length (received (server (final_world
                        (_get_objects_loop _ _ fuel ?l1 ?w1)))) =>
    pose proof (loop_received_mono fuel l1 w1) as IH end.
  eapply Nat.le_trans; [|exact IH]. cbn. rewrite length_app. cbn. lia.
Qed.
End ReceivedGrows.

(** C2. When the first page of a traversal has a non-null [before] cursor,
    the traversal pages through [before] and never through [after]. Every
    page of the run of pages that carry a [before] cursor is followed by a
    fetch, and the query of that fetch is the caller's query with [before]
    set to the [before] cursor of that page. No query sent after the first is
    of any other form: its [after] entry is the caller's own (none, when the
    caller supplied none), whatever [after] values the pages carry, the first
    one included. *)
Theorem before_direction_is_locked {R O} (parser : RawPage R -> result (list O))
    (fuel : nat) (q0 : Query) (p1 : RawPage R)
    (rest : list (result (option (RawPage R)))) (w : World (Scripted R)) :
  script (server w) = reply_page p1 :: rest ->
  received (server w) = [] ->
  is_Some (before (cursor p1)) ->
  let r := _get_objects scripted_endpoint parser fuel q0 w in
  (forall ps objss rest',
     reply_page p1 :: rest = map reply_page ps ++ rest' ->
     Forall (fun p => is_Some (before (cursor p))) ps ->
     Forall2 (fun p objs => parser p = Ok objs) ps objss ->
     length ps < fuel ->
     forall i p, ps !! i = Some p ->
       exists t, before (cursor p) = Some t /\
                 received (server (final_world r)) !! S i
                   = Some (<["before" := QStr t]> q0)) /\
  (forall i q, received (server (final_world r)) !! S i = Some q ->
     q !! "after" = q0 !! "after" /\
     (q0 !! "after" = None -> q !! "after" = None) /\
     exists p t, (reply_page p1 :: rest) !! i = Some (reply_page p) /\
                 before (cursor p) = Some t /\
                 q !! "before" = Some (QStr t) /\
                 q = <["before" := QStr t]> q0).
Proof.
  intros Hs Hr [t1 Hb] r.
  assert (Hfollow : queries_follow Before q0 (reply_page p1 :: rest)
                      (received (server (final_world r)))).
  { subst r. unfold _get_objects. destruct fuel as [|fuel].
    - cbn. rewrite Hr. intros i q Hi. discriminate.
    - cbn [_get_objects_loop]. unfold scripted_endpoint. rewrite Hs, Hr.
      unfold reply_page. destruct (parser p1) as [objs|e]; cbn.
      + unfold _get_paging_direction. rewrite Hb. cbn. rewrite Hb.
        apply (loop_queries_follow parser Before q0 _ fuel _ _ [reply_page p1]);
          cbn; try reflexivity.
        * right. exists t1. reflexivity.
        * intros [|i] q Hi; [|discriminate]. cbn in Hi. injection Hi as <-.
          exists p1, t1. auto.
      + intros [|i] q Hi; discriminate. }
  split.
  - intros ps objss rest' Hsplit Hbefore Hparse Hfuel i p Hi.
    assert (Hlen : length ps < length (received (server (final_world r)))).
    { subst r. unfold _get_objects.
      destruct (Nat.le_exists_sub (S (length ps)) fuel) as (k & -> & _); [lia|].
      replace (k + S (length ps)) with (length ps + S k) by lia.
      destruct (scripted_follow parser ps objss (S k) (mkLocals q0 None true []) w
                  rest') as (l' & w' & E & _ & _ & Hr' & _).
      - rewrite Hs. exact Hsplit.
      - exact Hparse.
      - destruct ps as [|p0 ps']; [constructor|].
        cbn in Hsplit. injection Hsplit as <- _.
        unfold direction_at, first_direction, _get_paging_direction. cbn.
        rewrite Hb. exact Hbefore.
      - rewrite E. rewrite Hr in Hr'. cbn in Hr'. rewrite <- Hr'.
        apply loop_received_step. }
    assert (Hi' : i < length ps) by (apply lookup_lt_Some in Hi; exact Hi).
    destruct (lookup_lt_is_Some_2 (received (server (final_world r))) (S i))
      as [q Hq]; [lia|].
    destruct (Hfollow i q Hq) as (p' & t & H1 & H2 & H3).
    assert (p' = p) as ->.
    { rewrite Hsplit, lookup_app_l in H1 by (rewrite length_map; exact Hi').
      rewrite list_lookup_fmap, Hi in H1. cbn in H1.
      unfold reply_page in H1. congruence. }
    exists t. split; [exact H2|]. rewrite Hq, H3. reflexivity.
  - intros i q Hi. destruct (Hfollow i q Hi) as (p & t & H1 & H2 & H3).
    assert (Ha : q !! "after" = q0 !! "after").
    { rewrite H3. cbn. apply lookup_insert_ne. discriminate. }
    split; [exact Ha|]. split; [intros H0; rewrite Ha; exact H0|].
    exists p, t. repeat split; auto.
    rewrite H3. cbn. apply lookup_insert_eq.
Qed.

Lemma before_direction_is_locked_witness :
  let script0 := [reply_page back1; reply_page back2; reply_page back3] in
  let r := _get_objects scripted_endpoint
             (fun results => Ok (_wiki_parser results 0)) 10 wikis_query
             (world0 (mkScripted script0 [])) in
  is_Some (before (cursor back1)) /\
  is_Some (after (cursor back2)) /\
  received (server (final_world r)) !! 1
    = Some (<["before" := QStr "b1"]> wikis_query) /\
  received (server (final_world r)) !! 2
    = Some (<["before" := QStr "b2"]> wikis_query) /\
  length (received (server (final_world r))) = 3 /\
  forall i q, received (server (final_world r)) !! S i = Some q ->
    q !! "after" = None.
Proof.
  intros script0 r.
  assert (H1 : is_Some (before (cursor back1))) by (eexists; reflexivity).
  destruct (before_direction_is_locked
              (fun results => Ok (_wiki_parser results 0)) 10 wikis_query back1
              [reply_page back2; reply_page back3]
              (world0 (mkScripted script0 [])) eq_refl eq_refl H1)
    as [Hsent Honly].
  assert (Hrun : forall i p, [back1; back2] !! i = Some p ->
            exists t, before (cursor p) = Some t /\
                      received (server (final_world r)) !! S i
                        = Some (<["before" := QStr t]> wikis_query)).
  { apply (Hsent [back1; back2] [_wiki_parser back1 0; _wiki_parser back2 0]
                 [reply_page back3]).
    - reflexivity.
    - repeat constructor; eexists; reflexivity.
    - repeat constructor.
    - cbn. lia. }
  split; [exact H1|]. split; [eexists; reflexivity|].
  split; [|split; [|split]].
  - destruct (Hrun 0 back1 eq_refl) as (t & Ht & Hq).
    cbn in Ht. injection Ht as <-. exact Hq.
  - destruct (Hrun 1 back2 eq_refl) as (t & Ht & Hq).
    cbn in Ht. injection Ht as <-. exact Hq.
  - vm_compute. reflexivity.
  - intros i q Hi. destruct (Honly i q Hi) as (_ & Ha & _).
    apply Ha. vm_compute. reflexivity.
Defined.

(** X1. When the first page of a traversal has no [before] cursor but an
    [after] cursor, every later query is the initial query with [after] set to
    the [after] cursor of the page fetched just before it; the [before] entry
    is never written, whatever [before] values later pages carry. *)
Theorem after_direction_is_locked {R O} (parser : RawPage R -> result (list O))
    (fuel : nat) (q0 : Query) (p1 : RawPage R)
    (rest : list (result (option (RawPage R)))) (w : World (Scripted R)) :
  script (server w) = reply_page p1 :: rest ->
  received (server w) = [] ->
  before (cursor p1) = None ->
  is_Some (after (cursor p1)) ->
  let r := _get_objects scripted_endpoint parser fuel q0 w in
  forall i q, received (server (final_world r)) !! S i = Some q ->
    q !! "before" = q0 !! "before" /\
    exists p t, (reply_page p1 :: rest) !! i = Some (reply_page p) /\
                after (cursor p) = Some t /\
                q !! "after" = Some (QStr t) /\
                q = <["after" := QStr t]> q0.
Proof.
  intros Hs Hr Hb [t1 Ha] r.
  assert (Hfollow : queries_follow After q0 (reply_page p1 :: rest)
                      (received (server (final_world r)))).
  { subst r. unfold _get_objects. destruct fuel as [|fuel].
    - cbn. rewrite Hr. intros i q Hi. discriminate.
    - cbn [_get_objects_loop]. unfold scripted_endpoint. rewrite Hs, Hr.
      unfold reply_page. destruct (parser p1) as [objs|e]; cbn.
      + unfold _get_paging_direction. rewrite Hb, Ha. cbn. rewrite Ha.
        apply (loop_queries_follow parser After q0 _ fuel _ _ [reply_page p1]);
          cbn; try reflexivity.
        * right. exists t1. reflexivity.
        * intros [|i] q Hi; [|discriminate]. cbn in Hi. injection Hi as <-.
          exists p1, t1. auto.
      + intros [|i] q Hi; discriminate. }
  intros i q Hi. destruct (Hfollow i q Hi) as (p & t & H1 & H2 & H3).
  split.
  - rewrite H3. cbn. apply lookup_insert_ne. discriminate.
  - exists p, t. repeat split; auto. rewrite H3. cbn. apply lookup_insert_eq.
Qed.

(** X2. A failure aborts the traversal and nothing is returned: when the
    page-fetch operation raises after any number of followed pages, or the
    parser raises on the page that comes next, [_get_objects] raises that
    same exception; the records parsed from the earlier pages are lost, and
    no further page is asked for. *)
Theorem failure_aborts_traversal {R O} (parser : RawPage R -> result (list O))
    (ps : list (RawPage R)) (objss : list (list O))
    (rest : list (result (option (RawPage R)))) (fuel : nat) (q0 : Query)
    (w : World (Scripted R)) (e : exn) :
  Forall2 (fun p objs => parser p = Ok objs) ps objss ->
  length ps < fuel ->
  let r := _get_objects scripted_endpoint parser fuel q0 w in
  (script (server w) = map reply_page ps ++ Raise e :: rest ->
   Forall (fun p => is_Some (next_token (first_direction ps) (cursor p))) ps ->
   outcome r = Some (Raise e) /\
   script (server (final_world r)) = rest /\
   length (received (server (final_world r))) =
     length (received (server w)) + S (length ps)) /\
  (forall p, script (server w) = map reply_page ps ++ reply_page p :: rest ->
   Forall (fun p' => is_Some (next_token (first_direction (ps ++ [p])) (cursor p')))
          ps ->
   parser p = Raise e ->
   outcome r = Some (Raise e) /\
   script (server (final_world r)) = rest /\
   length (received (server (final_world r))) =
     length (received (server w)) + S (length ps)).
Proof.
  intros Hp Hfuel r. subst r. unfold _get_objects.
  destruct (Nat.le_exists_sub (S (length ps)) fuel) as (k & -> & _); [lia|].
  replace (k + S (length ps)) with (length ps + S k) by lia.
  split.
  - intros Hs Hc.
    destruct (scripted_follow parser ps objss (S k) (mkLocals q0 None true []) w
                (Raise e :: rest) Hs Hp Hc)
      as (l' & w' & E & _ & Hs' & Hr' & _).
    rewrite E. erewrite loop_raise.
    2:{ unfold scripted_endpoint. rewrite Hs'. reflexivity. }
    cbn. rewrite length_app. cbn. repeat split. lia.
  - intros p Hs Hc Hraise.
    assert (Hc' : Forall (fun p' => is_Some (next_token
                    (direction_at (mkLocals (O := O) q0 None true []) ps) (cursor p')))
                    ps).
    { destruct ps as [|p0 ps']; [constructor|exact Hc]. }
    destruct (scripted_follow parser ps objss (S k) (mkLocals q0 None true []) w
                (reply_page p :: rest) Hs Hp Hc')
      as (l' & w' & E & _ & Hs' & Hr' & _).
    rewrite E, (loop_parser_raise parser k l' w' p rest e Hs' Hraise).
    cbn. rewrite length_app. cbn. repeat split. lia.
Qed.

(** X3. The loop has no page limit: against a page-fetch operation that
    always answers with a page carrying a [before] cursor, which the parser
    accepts, the traversal does not return, however much fuel it is given. *)
Theorem endless_cursor_never_returns {Srv R O} (endpoint : Endpoint Srv R)
    (parser : RawPage R -> result (list O)) :
  (forall q s, exists p s' objs,
      endpoint q s = (Ok (Some p), s') /\
      is_Some (before (cursor p)) /\
      parser p = Ok objs) ->
  forall fuel q0 w, outcome (_get_objects endpoint parser fuel q0 w) = None.
Proof.
  intros H fuel q0 w. unfold _get_objects.
  assert (G : forall fuel (l : Locals (O := O)) w,
             (is_first_page l = true \/ paging_direction l = Some Before) ->
             outcome (_get_objects_loop endpoint parser fuel l w) = None).
  { clear fuel q0 w. induction fuel as [|fuel IH]; intros l w Hl;
      cbn [_get_objects_loop]; [reflexivity|].
    destruct (H (query l) (server w)) as (p & s' & objs & -> & [t Ht] & ->).
    assert (Hd : (if is_first_page l then _get_paging_direction (cursor p)
                  else paging_direction l) = Some Before).
    { destruct Hl as [->| Hd].
      - unfold _get_paging_direction. rewrite Ht. reflexivity.
      - destruct (is_first_page l); [|exact Hd].
        unfold _get_paging_direction. rewrite Ht. reflexivity. }
    rewrite Hd. cbn. rewrite Ht. apply IH. right. reflexivity. }
  apply G. left. reflexivity.
Qed.

(** * Further properties of the parsers *)

Lemma dict_setitem_elem {V} (d : list (string * V)) k v k' v' :
  NoDup (map fst d) ->
  (k', v') ∈ dict_setitem d k v <->
  (k' = k /\ v' = v) \/ (k' <> k /\ (k', v') ∈ d).
Proof.
  induction d as [|[k0 v0] d IH]; intros Hnd; cbn [dict_setitem].
  - rewrite list_elem_of_singleton. split.
    + intros [= -> ->]. auto.
    + intros [[-> ->]|[_ H]]; [reflexivity|]. inversion H.
  - cbn [map fst] in Hnd. apply NoDup_cons in Hnd as [Hnin Hnd].
    destruct (String.eqb_spec k0 k) as [->|Hne]; rewrite !elem_of_cons.
    + split.
      * intros [[= -> ->]|H]; [auto|]. right. split; [|auto].
        intros ->. apply Hnin. apply list_elem_of_fmap. exists (k, v'). auto.
      * intros [[-> ->]|[Hk [[= -> ->]|H]]]; auto. contradiction.
    + rewrite (IH Hnd). split.
      * intros [[= -> ->]|[[-> ->]|[Hk H]]]; auto.
      * intros [[-> ->]|[Hk [[= -> ->]|H]]]; auto.
Qed.

Lemma wiki_loop_elem date_modified k o : forall rows d,
  wiki_dict_ok d ->
  (k, o) ∈ _wiki_parser_loop rows date_modified d <->
  (exists pre row post,
      rows = pre ++ row :: post /\
      (date_modified <= wiki_dateModified row)%Z /\
      wiki_phid row = k /\ o = mk_wiki row /\
      Forall (fun r => (date_modified <= wiki_dateModified r)%Z -> wiki_phid r <> k)
             post) \/
  ((k, o) ∈ d /\
   Forall (fun r => (date_modified <= wiki_dateModified r)%Z -> wiki_phid r <> k)
          rows).
Proof.
  induction rows as [|row0 rows IH]; intros d Hd; cbn [_wiki_parser_loop].
  - split.
    + intros H. right. split; [exact H|constructor].
    + intros [(pre & row & post & E & _)|[H _]]; [|exact H].
      destruct pre; discriminate.
  - destruct (Z.leb_spec date_modified (wiki_dateModified row0)) as [Hle|Hlt].
    + assert (Hd' : wiki_dict_ok (dict_setitem d (wiki_phid row0) (mk_wiki row0))).
      { destruct Hd as [Hnd Hv]. split.
        - rewrite dict_setitem_keys. case_decide; [exact Hnd|].
          apply NoDup_app. repeat split; [exact Hnd| |apply NoDup_singleton].
          intros x Hx Hx'. apply list_elem_of_singleton in Hx'. subst. contradiction.
        - apply (dict_setitem_values (fun k v => phid (base_of v) = k)); auto. }
      rewrite (IH _ Hd'), (dict_setitem_elem d _ _ k o (proj1 Hd)). split.
      * intros [(pre & row & post & -> & H1 & H2 & H3 & H4)
               |[[[-> ->]|[Hk Hin]] Hall]].
        -- left. exists (row0 :: pre), row, post. auto.
        -- left. exists [], row0, rows. auto.
        -- right. split; [exact Hin|]. constructor; [|exact Hall].
           intros _ E. apply Hk. symmetry. exact E.
      * intros [(pre & row & post & E & H1 & H2 & H3 & H4)|[Hin Hall]].
        -- destruct pre as [|r pre]; cbn in E; injection E as <- ->.
           ++ right. split; [|exact H4]. left. auto.
           ++ left. exists pre, row, post. auto.
        -- inversion Hall as [|? ? H0 Hall']; subst.
           right. split; [|exact Hall']. right. split; [|exact Hin].
           intros E. apply (H0 Hle). symmetry. exact E.
    + rewrite (IH _ Hd). split.
      * intros [(pre & row & post & -> & H1 & H2 & H3 & H4)|[Hin Hall]].
        -- left. exists (row0 :: pre), row, post. auto.
        -- right. split; [exact Hin|]. constructor; [|exact Hall]. lia.
      * intros [(pre & row & post & E & H1 & H2 & H3 & H4)|[Hin Hall]].
        -- destruct pre as [|r pre]; cbn in E; injection E as <- ->; [lia|].
           left. exists pre, row, post. auto.
        -- inversion Hall; subst. right. auto.
Qed.

(** X4. Within one page the WikiPage parser keeps, for each [phid], the row
    that comes last in page order among those modified at or after the
    watermark: a record is in the output exactly when it is built from a
    qualifying row that no later qualifying row of the page shares its [phid]
    with. *)
Theorem wiki_parser_keeps_last_row (results : RawPage WikiRow) (date_modified : Z)
    (o : PhabObject) :
  o ∈ _wiki_parser results date_modified <->
  exists pre row post,
    data results = pre ++ row :: post /\
    (date_modified <= wiki_dateModified row)%Z /\
    o = mk_wiki row /\
    Forall (fun r => (date_modified <= wiki_dateModified r)%Z ->
                     wiki_phid r <> wiki_phid row) post.
Proof.
  unfold _wiki_parser, dict_values.
  assert (Hok : wiki_dict_ok []) by (split; constructor).
  split.
  - intros H. apply list_elem_of_fmap in H as ([k o'] & -> & Hin). cbn.
    apply (wiki_loop_elem date_modified k o' (data results) [] Hok) in Hin
      as [(pre & row & post & E & H1 & <- & H3 & H4)|[Hin _]]; [|inversion Hin].
    exists pre, row, post. auto.
  - intros (pre & row & post & E & H1 & -> & H4).
    apply list_elem_of_fmap. exists (wiki_phid row, mk_wiki row).
    split; [reflexivity|].
    apply (wiki_loop_elem date_modified _ _ (data results) [] Hok).
    left. exists pre, row, post. auto.
Qed.


Lemma qualifying_earlier w w' t c :
  (w <= w')%Z ->
  qualifying_comment w' t = Some c -> qualifying_comment w t = Some c.
Proof.
  intros Hle. unfold qualifying_comment.
  destruct (decide (tx_type t = "comment")); [|discriminate].
  destruct (head (tx_comments t)) as [c'|]; [|discriminate].
  destruct (decide (w' <= comment_dateModified c')%Z); [|discriminate].
  intros [= ->]. rewrite decide_True by lia. reflexivity.
Qed.

Lemma qualifying_sublist w w' : forall ts,
  (w <= w')%Z ->
  map mk_comment (omap (qualifying_comment w') ts)
    `sublist_of` map mk_comment (omap (qualifying_comment w) ts).
Proof.
  intros ts Hle. induction ts as [|t ts IH]; [constructor|].
  cbn [omap list_omap].
  destruct (qualifying_comment w' t) as [c|] eqn:E'.
  - rewrite (qualifying_earlier w w' t c Hle E'). cbn. constructor. exact IH.
  - destruct (qualifying_comment w t) as [c|]; [|exact IH].
    cbn. constructor. exact IH.
Qed.

(** X6. Moving the watermark forward never adds a comment: on any page, the
    records returned for a later watermark are a sublist of those returned
    for an earlier one, and whether the parser raises does not depend on the
    watermark. *)
Theorem later_watermark_keeps_fewer_comments (results : RawPage Transaction)
    (date_modified date_modified' : Z) :
  (date_modified <= date_modified')%Z ->
  (forall e, _comment_parser results date_modified = Raise e <->
             _comment_parser results date_modified' = Raise e) /\
  (forall out out',
     _comment_parser results date_modified = Ok out ->
     _comment_parser results date_modified' = Ok out' ->
     out' `sublist_of` out).
Proof.
  intros Hle. unfold _comment_parser.
  destruct (payload_or_empty (data results)) as [H|H].
  - rewrite !(comment_loop_spec _ _ [] H). cbn [app]. split.
    + intros e. split; discriminate.
    + intros out out' [= <-] [= <-]. apply qualifying_sublist. exact Hle.
  - rewrite !(comment_loop_raises _ _ [] H). split.
    + intros e. reflexivity.
    + intros out out' E. discriminate.
Qed.

(** * Further properties of the synchronization pass *)

Lemma fetch_frame_refl {Srv} (w : World Srv) : fetch_frame w w.
Proof. split; [reflexivity|]. exists 0. cbn. rewrite app_nil_r. reflexivity. Qed.

Lemma fetch_frame_trans {Srv} (w1 w2 w3 : World Srv) :
  fetch_frame w1 w2 -> fetch_frame w2 w3 -> fetch_frame w1 w3.
Proof.
  intros [Hq1 [n1 Hl1]] [Hq2 [n2 Hl2]]. split; [congruence|].
  exists (n1 + n2). rewrite Hl2, Hl1, repeat_app, app_assoc. reflexivity.
Qed.

Lemma get_objects_fetch_frame {Srv R O} (endpoint : Endpoint Srv R)
    (parser : RawPage R -> result (list O)) fuel q0 (w : World Srv) :
  fetch_frame w (final_world (_get_objects endpoint parser fuel q0 w)).
Proof.
  destruct (loop_frame endpoint parser fuel (mkLocals q0 None true []) w)
    as [Hq [Hl|Hl]]; (split; [exact Hq|]).
  - exists 0. cbn. rewrite app_nil_r. exact Hl.
  - exists 1. exact Hl.
Qed.

Section PassFrame.
Context {Srv : Type}.
Variable self : PhabricatorDataSource Srv.
Variable fuel : nat.

Lemma fetch_all_objects_frame w :
  fetch_frame w (_fetch_all_objects self fuel w).2.
Proof.
  unfold _fetch_all_objects, bind, get_all_wikis, get_all_tasks, ret.
  pose proof (get_objects_fetch_frame (_query_phriction (_phab self))
    (fun results => Ok (_wiki_parser results (_last_index_time_timestamp self)))
    fuel wikis_query w) as H1.
  destruct (outcome _) as [[wikis|e]|]; cbn [snd]; try exact H1.
  match goal with |- context [_get_objects ?ep ?pa fuel ?q ?w1] =>
    pose proof (get_objects_fetch_frame ep pa fuel q w1) as H2 end.
  destruct (outcome _) as [[tasks|e]|]; cbn [snd];
    exact (fetch_frame_trans _ _ _ H1 H2).
Qed.

Lemma fetch_all_comments_frame : forall documents comments w,
  fetch_frame w (_fetch_all_comments_loop self fuel documents comments w).2.
Proof.
  induction documents as [|document rest IH]; intros comments w;
    cbn [_fetch_all_comments_loop].
  - apply fetch_frame_refl.
  - unfold bind, get_object_comments.
    match goal with |- context [_get_objects ?ep ?pa fuel ?q w] =>
      pose proof (get_objects_fetch_frame ep pa fuel q w) as H1 end.
    destruct (outcome _) as [[cs|e]|]; cbn [snd]; try exact H1.
    exact (fetch_frame_trans _ _ _ H1 (IH _ _)).
Qed.
End PassFrame.

(** X7. A failed fetch leaves the sink untouched: when the fetch of the wiki
    pages or of the tasks, or the fetch of some parent's comments, raises or
    does not return, the pass does not return either, it stops in the world
    that fetch left, and in that world the index queue is as it was before
    the pass and the log has gained nothing but records of empty responses. *)
Theorem failed_fetch_feeds_nothing {Srv} (self : PhabricatorDataSource Srv)
    (fuel : nat) (w : World Srv) :
  let r := _feed_new_documents self fuel w in
  (forall r1 w1,
     _fetch_all_objects self fuel w = (r1, w1) ->
     (forall objs, r1 <> Some (Ok objs)) ->
     r.1 <> Some (Ok tt) /\ r.2 = w1 /\ fetch_frame w r.2) /\
  (forall objs w1 r2 w2,
     _fetch_all_objects self fuel w = (Some (Ok objs), w1) ->
     _fetch_all_comments self fuel objs w1 = (r2, w2) ->
     (forall comments, r2 <> Some (Ok comments)) ->
     r.1 <> Some (Ok tt) /\ r.2 = w2 /\ fetch_frame w r.2).
Proof.
  intros r. subst r. unfold _feed_new_documents, bind.
  pose proof (fetch_all_objects_frame self fuel w) as H1. split.
  - intros r1 w1 E Hfail. rewrite E in *. cbn [snd] in H1.
    destruct r1 as [[objs|e]|]; [destruct (Hfail objs eq_refl)| |];
      cbn [fst snd]; (split; [discriminate|split; [reflexivity|exact H1]]).
  - intros objs w1 r2 w2 E1 E2 Hfail. rewrite E1 in *. cbn [snd] in H1.
    pose proof (fetch_all_comments_frame self fuel objs [] w1) as H2.
    unfold _fetch_all_comments in *. rewrite E2 in *. cbn [snd] in H2.
    destruct r2 as [[cs|e]|]; [destruct (Hfail cs eq_refl)| |];
      cbn [fst snd];
      (split; [discriminate
              |split; [reflexivity|exact (fetch_frame_trans _ _ _ H1 H2)]]).
Qed.

Lemma failed_fetch_feeds_nothing_witness :
  let source := mkPhabricatorDataSource sample_client 1 0 in
  let r := _feed_new_documents source 5 (world0 broken_server) in
  r.1 = Some (Raise IndexError) /\
  fetch_frame (world0 broken_server) r.2 /\
  index_queue r.2 = [].
Proof.
  intros source r.
  assert (H : r.1 = Some (Raise IndexError)) by (vm_compute; reflexivity).
  split; [exact H|].
  destruct (proj2 (failed_fetch_feeds_nothing source 5 (world0 broken_server))
              [mk_task (sample_task "7" "PHID-TASK-7" "Fix login" 120);
               mk_wiki (sample_wiki "11" "PHID-WIKI-1" "Home" 30)]
              (_fetch_all_objects source 5 (world0 broken_server)).2
              (Some (Raise IndexError))
              (_fetch_all_comments source 5
                 [mk_task (sample_task "7" "PHID-TASK-7" "Fix login" 120);
                  mk_wiki (sample_wiki "11" "PHID-WIKI-1" "Home" 30)]
                 (_fetch_all_objects source 5 (world0 broken_server)).2).2)
    as (_ & _ & F).
  - vm_compute. reflexivity.
  - vm_compute. reflexivity.
  - intros comments. discriminate.
  - split; [exact F|]. exact (proj1 F).
Defined.

(** * Properties of the HTTP side *)

Lemma raise_for_status_ok {R} (response : Response R) :
  status_ok (status_code response) -> raise_for_status response = Ok tt.
Proof.
  unfold status_ok, raise_for_status. intros H.
  destruct (Z.leb_spec 400 (status_code response)),
           (Z.ltb_spec (status_code response) 600); cbn; try reflexivity. lia.
Qed.

Lemma raise_for_status_error {R} (response : Response R) :
  (400 <= status_code response < 600)%Z ->
  raise_for_status response = Raise HTTPError.
Proof.
  unfold raise_for_status. intros H.
  destruct (Z.leb_spec 400 (status_code response)),
           (Z.ltb_spec (status_code response) 600); cbn; try reflexivity; lia.
Qed.

Section HTTP.
Context {Srv R : Type}.
Variable urljoin : string -> string -> string.
Variable session_get : Session Srv R.
Variable self : PhabricatorClientFields.

Lemma get_with_auth_sends path kwargs s :
  kwargs !! "verify" = None ->
  kwargs !! "params" = None ->
  _get_with_auth urljoin session_get self path [] kwargs s =
    let (r, s') :=
      session_get (mkRequest (urljoin (url self) "/api/") path []
                             (verify_ssl self)
                             (Some {[ "api.token" := QStr (token self) ]}) kwargs) s in
    match r with
    | Raise e => (Raise e, s')
    | Ok response =>
        match raise_for_status response with
        | Raise e => (Raise e, s')
        | Ok _ => (Ok response, s')
        end
    end.
Proof.
  intros Hv Hp. unfold _get_with_auth.
  rewrite bool_decide_eq_false_2.
  - rewrite Hp. reflexivity.
  - rewrite Hv, Hp. intros [[? H]|[? H]]; discriminate.
Qed.
End HTTP.

Lemma query_endpoint_eq {Srv R} (urljoin : string -> string -> string)
    (session_get : Session Srv R) (self : PhabricatorClientFields)
    (endpoint : string) (query : Query) (s s' : Srv) (response : Response R) :
  session_get (mkRequest (urljoin (url self) "/api/") endpoint []
                         (verify_ssl self)
                         (Some {[ "api.token" := QStr (token self) ]})
                         {[ "data" := query ]}) s = (Ok response, s') ->
  _query_endpoint urljoin session_get self endpoint query s =
    match raise_for_status response with
    | Raise e => (Raise e, s')
    | Ok _ =>
        match json response with
        | Raise e => (Raise e, s')
        | Ok NotAnObject => (Raise TypeError, s')
        | Ok NoResultKey => (Raise KeyError, s')
        | Ok ResultNull => (Ok None, s')
        | Ok (ResultPage p) => (Ok (Some p), s')
        end
    end.
Proof.
  intros Hget. unfold _query_endpoint. rewrite get_with_auth_sends.
  - rewrite Hget. destruct (raise_for_status response); reflexivity.
  - apply lookup_singleton_ne. discriminate.
  - apply lookup_singleton_ne. discriminate.
Qed.

Lemma loop_server_invariant {Srv R O} (endpoint : Endpoint Srv R)
    (parser : RawPage R -> result (list O)) (I : Srv -> Prop) (Q : Query -> Prop) :
  (forall q s, Q q -> I s -> I (endpoint q s).2) ->
  (forall q d t, Q q -> Q (<[direction_key d := QStr t]> q)) ->
  forall fuel (l : Locals (O := O)) w,
    Q (query l) -> I (server w) ->
    I (server (final_world (_get_objects_loop endpoint parser fuel l w))).
Proof.
  intros Hstep Hins. induction fuel as [|fuel IH]; intros l w HQ HI;
    cbn [_get_objects_loop]; [exact HI|].
  specialize (Hstep (query l) (server w) HQ HI).
  destruct (endpoint (query l) (server w)) as [[[p|]|e] s']; cbn in *; auto.
  destruct (parser p) as [objs|e]; cbn; auto.
  destruct (if is_first_page l then _ else _) as [d|]; cbn; auto.
  destruct (cursor_item (cursor p) d) as [t|]; cbn; auto.
  apply IH; cbn; auto.
Qed.

(** X10. Every request of a traversal through the HTTP client goes to the
    API address and the same Conduit method, carries the token as its only
    parameter and the client's [verify] setting, and has as [data] the query
    of that iteration, which differs from the caller's query at most in the
    two cursor keys: the token never travels in [data], the cursor never in
    the parameters. *)
Theorem traversal_requests {R O} (urljoin : string -> string -> string)
    (self : PhabricatorClientFields) (endpoint : string)
    (parser : RawPage R -> result (list O)) (fuel : nat) (q0 : Query)
    (w : World (Recorded R)) :
  requests (server w) = [] ->
  let r := _get_objects (_query_endpoint urljoin recorded_session self endpoint)
             parser fuel q0 w in
  Forall (conduit_request urljoin self endpoint q0)
         (requests (server (final_world r))).
Proof.
  intros Hreq r. subst r. unfold _get_objects.
  apply (loop_server_invariant _ parser
           (fun s => Forall (conduit_request urljoin self endpoint q0) (requests s))
           (fun q => forall k, k <> "before" -> k <> "after" -> q !! k = q0 !! k)).
  - intros q s HQ HI. unfold _query_endpoint. rewrite get_with_auth_sends;
      [|apply lookup_singleton_ne; discriminate
       |apply lookup_singleton_ne; discriminate].
    assert (Hnew : Forall (conduit_request urljoin self endpoint q0)
                     (requests s ++
                      [mkRequest (urljoin (url self) "/api/") endpoint []
                                 (verify_ssl self)
                                 (Some {[ "api.token" := QStr (token self) ]})
                                 {[ "data" := q ]}])).
    { apply Forall_app. split; [exact HI|]. constructor; [|constructor].
      unfold conduit_request. cbn. repeat split. exists q. auto. }
    unfold recorded_session.
    destruct (replies s) as [|[response|e] rest]; cbn.
    + exact Hnew.
    + destruct (raise_for_status response); cbn; [|exact Hnew].
      destruct (json response) as [[| | |p]|e]; cbn; exact Hnew.
    + exact Hnew.
  - intros q d t HQ k Hb Ha. rewrite lookup_insert_ne; [auto|].
    destruct d; cbn; congruence.
  - cbn. auto.
  - cbn. rewrite Hreq. constructor.
Qed.

(** X11. A reply with a non-error status whose result is [null] is taken as
    "no data", whatever else the body says: [get_all_tasks] through the HTTP
    client returns the empty list without raising, and logs the empty
    response. *)
Theorem null_result_is_no_data {Srv} (urljoin : string -> string -> string)
    (tasks_get : Session Srv TaskRow) (transactions_get : Session Srv Transaction)
    (wikis_get : Session Srv WikiRow) (self : PhabricatorClientFields)
    (fuel : nat) (date_modified : Z) (w : World Srv) (status : Z) (s' : Srv) :
  tasks_get (mkRequest (urljoin (url self) "/api/") "maniphest.search" []
                       (verify_ssl self)
                       (Some {[ "api.token" := QStr (token self) ]})
                       {[ "data" := tasks_query date_modified ]}) (server w)
    = (Ok (mkResponse status (Ok ResultNull)), s') ->
  status_ok status ->
  get_all_tasks (http_client urljoin tasks_get transactions_get wikis_get self)
                (S fuel) date_modified w
    = (Some (Ok []), logging_info EmptyResponse (set_server w s')).
Proof.
  intros Hget Hst. unfold get_all_tasks, _get_objects.
  cbn [http_client _query_maniphest].
  erewrite loop_empty_response; [reflexivity|].
  cbn [query]. unfold query_maniphest.
  rewrite (query_endpoint_eq urljoin tasks_get self "maniphest.search"
             (tasks_query date_modified) (server w) s' _ Hget).
  rewrite raise_for_status_ok by exact Hst. reflexivity.
Qed.

Lemma raise_for_status_cases {R} (response : Response R) :
  (raise_for_status response = Ok tt /\ status_ok (status_code response)) \/
  (raise_for_status response = Raise HTTPError /\
   (400 <= status_code response < 600)%Z).
Proof.
  destruct (decide (400 <= status_code response < 600)%Z) as [H|H].
  - right. split; [apply raise_for_status_error; exact H|exact H].
  - left. split; [apply raise_for_status_ok; exact H|exact H].
Qed.

Lemma new_client_Ok (config : gmap string string) phab :
  new_client config = Ok phab <->
  config !! "url" = Some (url phab) /\ config !! "token" = Some (token phab) /\
  dom config = ({[ "url"; "token" ]} : gset string) /\
  verify_ssl phab = Some false.
Proof.
  unfold new_client. split.
  - destruct (config !! "url") as [u|]; [|discriminate].
    destruct (config !! "token") as [t|]; [|discriminate].
    case_bool_decide as Hdom; [|discriminate].
    intros [= <-]. auto.
  - intros (-> & -> & Hdom & Hv). rewrite bool_decide_eq_true_2 by exact Hdom.
    destruct phab; cbn in *. subst. reflexivity.
Qed.

(** X12. [validate_config] returns normally exactly when the configuration
    has the keys [url] and [token] and no other, the health probe on the
    server address and then the authentication probe on the API address are
    both answered with a non-error status; both probes are sent with
    certificate verification switched off. A configuration with other keys is
    rejected, with [InvalidDataSourceConfig] caused by [TypeError], before
    anything is sent. *)
Theorem validate_config_outcome {Srv R} (urljoin : string -> string -> string)
    (session_get : Session Srv R) (config : gmap string string) (s : Srv) :
  ((validate_config urljoin session_get config s).1 = ConfigValid <->
   exists u t health s1 auth,
     config !! "url" = Some u /\ config !! "token" = Some t /\
     dom config = ({[ "url"; "token" ]} : gset string) /\
     session_get (mkRequest u "/" [] (Some false) None ∅) s = (Ok health, s1) /\
     status_ok (status_code health) /\
     session_get (mkRequest (urljoin u "/api/") "/" [] (Some false)
                            (Some {[ "api.token" := QStr t ]}) ∅) s1
       = (Ok auth, (validate_config urljoin session_get config s).2) /\
     status_ok (status_code auth)) /\
  (dom config <> ({[ "url"; "token" ]} : gset string) ->
   validate_config urljoin session_get config s
     = (InvalidDataSourceConfig TypeError, s)).
Proof.
  split.
  - unfold validate_config. split.
    + destruct (new_client config) as [phab|e] eqn:Ec; [|discriminate].
      apply new_client_Ok in Ec as (Hu & Ht & Hdom & Hv).
      unfold check_server_health. rewrite Hv.
      destruct (session_get _ s) as [[health|e] s1] eqn:Eh; [|discriminate].
      destruct (raise_for_status_cases health) as [[Eh1 Hh]|[Eh1 _]];
        rewrite Eh1; [|discriminate].
      unfold validate_authentication.
      rewrite get_with_auth_sends by apply lookup_empty. rewrite Hv.
      destruct (session_get _ s1) as [[auth|e] s2] eqn:Ea; [|discriminate].
      destruct (raise_for_status_cases auth) as [[Ea1 Ha]|[Ea1 _]];
        rewrite Ea1; [|discriminate].
      rewrite Ea1. intros _. cbn [snd].
      exists (url phab), (token phab), health, s1, auth. auto 10.
    + intros (u & t & health & s1 & auth & Hu & Ht & Hdom & Eh & Hh & Ea & Ha).
      assert (Ec : new_client config = Ok (mkPhabricatorClientFields u t (Some false)))
        by (apply new_client_Ok; cbn; auto).
      revert Ea. rewrite Ec. unfold check_server_health. cbn [url verify_ssl].
      rewrite Eh, (raise_for_status_ok _ Hh).
      unfold validate_authentication.
      rewrite get_with_auth_sends by apply lookup_empty. cbn [url token verify_ssl].
      destruct (session_get _ s1) as [[auth'|e] s2]; intros Ea; [|discriminate].
      injection Ea as -> _. rewrite !(raise_for_status_ok _ Ha). reflexivity.
  - intros Hdom. unfold validate_config, new_client.
    destruct (config !! "url"), (config !! "token"); try reflexivity.
    rewrite bool_decide_eq_false_2 by exact Hdom. reflexivity.
Qed.

(** * Concrete runs, continued *)

Lemma after_direction_is_locked_witness :
  let script0 := [reply_page fwd1; reply_page fwd2; reply_page fwd3] in
  let r := _get_objects scripted_endpoint
             (fun results => Ok (_wiki_parser results 0)) 10 wikis_query
             (world0 (mkScripted script0 [])) in
  length (received (server (final_world r))) = 3 /\
  forall i q, received (server (final_world r)) !! S i = Some q ->
    q !! "before" = wikis_query !! "before" /\
    exists p t, script0 !! i = Some (reply_page p) /\
                after (cursor p) = Some t /\
                q !! "after" = Some (QStr t) /\
                q = <["after" := QStr t]> wikis_query.
Proof.
  intros script0 r. split; [vm_compute; reflexivity|].
  apply (after_direction_is_locked
           (fun results => Ok (_wiki_parser results 0)) 10 wikis_query fwd1
           [reply_page fwd2; reply_page fwd3]
           (world0 (mkScripted script0 [])) eq_refl eq_refl eq_refl).
  eexists. reflexivity.
Defined.

Lemma failure_aborts_traversal_witness :
  let wiki := fun results : RawPage WikiRow => Ok (_wiki_parser results 0) in
  let r := _get_objects scripted_endpoint wiki 5 wikis_query
             (world0 (mkScripted [reply_page back1; Raise (RequestError "timeout");
                                  reply_page back3] [])) in
  let comments := fun results : RawPage Transaction => _comment_parser results 0 in
  let r' := _get_objects scripted_endpoint comments 5 wikis_query
              (world0 (mkScripted [reply_page sample_transactions_no_payload] [])) in
  (outcome r = Some (Raise (RequestError "timeout")) /\
   script (server (final_world r)) = [reply_page back3] /\
   length (received (server (final_world r))) = 2) /\
  (outcome r' = Some (Raise IndexError) /\
   script (server (final_world r')) = [] /\
   length (received (server (final_world r'))) = 1).
Proof.
  intros wiki r comments r'. split.
  - apply (proj1 (failure_aborts_traversal wiki [back1] [_wiki_parser back1 0]
                    [reply_page back3] 5 wikis_query
                    (world0 (mkScripted [reply_page back1;
                                         Raise (RequestError "timeout");
                                         reply_page back3] []))
                    (RequestError "timeout")
                    ltac:(repeat constructor) ltac:(cbn; lia))).
    + reflexivity.
    + repeat constructor. eexists. reflexivity.
  - apply (proj2 (failure_aborts_traversal comments [] [] [] 5 wikis_query
                    (world0 (mkScripted [reply_page sample_transactions_no_payload] []))
                    IndexError ltac:(constructor) ltac:(cbn; lia))
                 sample_transactions_no_payload).
    + reflexivity.
    + constructor.
    + reflexivity.
Defined.

Lemma endless_cursor_never_returns_witness :
  outcome (_get_objects endless_endpoint
             (fun results => Ok (_wiki_parser results 0)) 1000 wikis_query
             (world0 tt)) = None.
Proof.
  apply (endless_cursor_never_returns endless_endpoint
           (fun results => Ok (_wiki_parser results 0))).
  intros q s. exists back1, s, (_wiki_parser back1 0). repeat split.
  eexists. reflexivity.
Defined.

Lemma wiki_parser_keeps_last_row_witness :
  mk_wiki (sample_wiki "20" "PHID-WIKI-1" "Home, older" 15)
    ∈ _wiki_parser rev_page1 0 /\
  _wiki_parser rev_page1 0 = [mk_wiki (sample_wiki "20" "PHID-WIKI-1" "Home, older" 15)].
Proof.
  split; [|reflexivity].
  apply (proj2 (wiki_parser_keeps_last_row rev_page1 0 _)).
  exists [sample_wiki "21" "PHID-WIKI-1" "Home, newer" 20],
         (sample_wiki "20" "PHID-WIKI-1" "Home, older" 15), [].
  split; [reflexivity|]. split; [cbn; lia|]. split; [reflexivity|constructor].
Defined.


Lemma later_watermark_keeps_fewer_comments_witness :
  [mk_comment (sample_payload "3" "PHID-XCMT-3" 150)]
    `sublist_of` [mk_comment (sample_payload "1" "PHID-XCMT-1" 100);
                  mk_comment (sample_payload "3" "PHID-XCMT-3" 150)] /\
  (_comment_parser sample_transactions_no_payload 100 = Raise IndexError <->
   _comment_parser sample_transactions_no_payload 120 = Raise IndexError).
Proof.
  destruct (later_watermark_keeps_fewer_comments sample_transactions 100 120
              ltac:(lia)) as [_ H].
  destruct (later_watermark_keeps_fewer_comments sample_transactions_no_payload
              100 120 ltac:(lia)) as [H' _].
  split; [apply H; reflexivity|apply H'].
Defined.

Lemma traversal_requests_witness :
  let r := _get_objects
             (_query_endpoint join_root recorded_session sample_fields
                              "maniphest.search")
             (fun results => Ok (_task_parser results)) 5 (tasks_query 100)
             (world0 (mkRecorded [ok_reply (ResultPage task_page1);
                                  ok_reply (ResultPage task_page2)] [])) in
  Forall (conduit_request join_root sample_fields "maniphest.search" (tasks_query 100))
         (requests (server (final_world r))) /\
  map (fun req => req_kwargs req !! "data" ≫= fun q : Query => q !! "after")
      (requests (server (final_world r))) = [None; Some (QStr "8")].
Proof.
  intros r. split; [|vm_compute; reflexivity].
  apply (traversal_requests join_root sample_fields "maniphest.search"
           (fun results => Ok (_task_parser results)) 5 (tasks_query 100)
           (world0 (mkRecorded [ok_reply (ResultPage task_page1);
                                ok_reply (ResultPage task_page2)] []))).
  reflexivity.
Defined.

Lemma null_result_is_no_data_witness :
  (get_all_tasks sample_http_client 1 100
     (world0 (mkRecorded [ok_reply ResultNull] []))).1 = Some (Ok []) /\
  log (get_all_tasks sample_http_client 1 100
         (world0 (mkRecorded [ok_reply ResultNull] []))).2 = [EmptyResponse].
Proof.
  unfold sample_http_client.
  rewrite (null_result_is_no_data join_root recorded_session silent_session
             silent_session sample_fields 0 100
             (world0 (mkRecorded [ok_reply ResultNull] [])) 200
             (mkRecorded []
                [mkRequest "https://phab.example/api/" "maniphest.search" []
                           (Some false)
                           (Some {[ "api.token" := QStr "api-token" ]})
                           {[ "data" := tasks_query 100 ]}])
             eq_refl ltac:(unfold status_ok; lia)).
  split; reflexivity.
Defined.

Lemma validate_config_outcome_witness :
  (validate_config join_root (recorded_session (R := unit)) sample_config
     (mkRecorded [ok_reply ResultNull; ok_reply ResultNull] [])).1 = ConfigValid /\
  validate_config join_root (recorded_session (R := unit)) strict_config
    (mkRecorded [ok_reply ResultNull; ok_reply ResultNull] [])
  = (InvalidDataSourceConfig TypeError,
     mkRecorded [ok_reply ResultNull; ok_reply ResultNull] []).
Proof.
  split.
  - apply (proj2 (proj1 (validate_config_outcome join_root
                           (recorded_session (R := unit)) sample_config
                           (mkRecorded [ok_reply ResultNull; ok_reply ResultNull] [])))).
    exists "https://phab.example", "api-token", (mkResponse 200 (Ok ResultNull)),
           (mkRecorded [ok_reply ResultNull]
              [mkRequest "https://phab.example" "/" [] (Some false) None ∅]),
           (mkResponse 200 (Ok ResultNull)).
    split; [vm_compute; reflexivity|]. split; [vm_compute; reflexivity|].
    split; [vm_compute; reflexivity|]. split; [reflexivity|].
    split; [unfold status_ok; cbn; lia|]. split; [vm_compute; reflexivity|].
    unfold status_ok; cbn; lia.
  - apply (proj2 (validate_config_outcome join_root (recorded_session (R := unit))
                    strict_config
                    (mkRecorded [ok_reply ResultNull; ok_reply ResultNull] []))).
    intros H. assert (Hin : "verify_ssl" ∈ dom strict_config).
    { unfold strict_config. apply elem_of_dom. eexists. apply lookup_insert_eq. }
    rewrite H in Hin. set_solver.
Defined.

(** A pass over the sample server through the two probes of
    [validate_config]: the requests that were sent. *)
Example validate_config_requests :
  requests (validate_config join_root (recorded_session (R := unit)) sample_config
              (mkRecorded [] [])).2 =
    [mkRequest "https://phab.example" "/" [] (Some false) None ∅;
     mkRequest "https://phab.example/api/" "/" [] (Some false)
               (Some {[ "api.token" := QStr "api-token" ]}) ∅].
Proof. vm_compute. reflexivity. Qed.

(** X13. The configuration fields the connector declares are the ones its
    client takes: a configuration builds a client exactly when its keys are
    the names of the declared fields, the client then has the configured
    address and token, and certificate verification is switched off whatever
    the configuration says. *)
Theorem config_fields_build_the_client (config : gmap string string) :
  ((exists phab, new_client config = Ok phab) <->
   dom config = (list_to_set (map field_name get_config_fields) : gset string)) /\
  (forall phab, new_client config = Ok phab ->
     config !! "url" = Some (url phab) /\
     config !! "token" = Some (token phab) /\
     verify_ssl phab = Some false).
Proof.
  assert (E : (list_to_set (map field_name get_config_fields) : gset string)
              = {[ "url"; "token" ]}).
  { cbn. set_solver. }
  rewrite E. split.
  - split.
    + intros [phab H]. apply new_client_Ok in H as (_ & _ & H & _). exact H.
    + intros Hdom.
      assert (Hu : is_Some (config !! "url"))
        by (apply elem_of_dom; rewrite Hdom; set_solver).
      assert (Ht : is_Some (config !! "token"))
        by (apply elem_of_dom; rewrite Hdom; set_solver).
      destruct Hu as [u Hu], Ht as [t Ht].
      exists (mkPhabricatorClientFields u t (Some false)).
      apply new_client_Ok. cbn. auto.
  - intros phab H. apply new_client_Ok in H as (Hu & Ht & _ & Hv). auto.
Qed.

Lemma config_fields_build_the_client_witness :
  new_client sample_config = Ok sample_fields /\
  dom sample_config =
    (list_to_set (map field_name get_config_fields) : gset string) /\
  verify_ssl sample_fields = Some false.
Proof.
  assert (H : new_client sample_config = Ok sample_fields)
    by (vm_compute; reflexivity).
  destruct (config_fields_build_the_client sample_config) as [H1 H2].
  split; [exact H|]. split.
  - apply (proj1 H1). exists sample_fields. exact H.
  - apply (H2 sample_fields H).
Defined.
